(** * ArucoTracker: marker scale inference and pose pipeline

    A shallow embedding of [src/ArucoTracker.cpp] (class [ArucoTrackerNode]:
    constructor, [distance_sensor_callback], [image_callback], [main]) and
    the properties of it that the specification states.

    - C++ [float] and [double] are IEEE-754 binary32 and binary64 values,
      modelled with the Standard Library's [spec_float] and its correctly
      rounded operations (round to nearest, ties to even).
    - The callbacks run in a small trace-and-exception monad: the trace
      records log lines, library calls with their arguments and published
      messages; a computation ends normally, by a C++ exception, or by
      undefined behaviour (an out-of-range [operator[]] or a read through an
      empty [cv::Mat]).
    - OpenCV, cv_bridge and the transport are an interface ([Externals]).
    - For what may be carried from one frame to the next, the member
      functions are also given over libraries that keep a state of their
      own ([Libraries]), each callback returning the node it leaves. *)

From Stdlib Require Import ZArith List String Bool Lia.
From Stdlib Require Import Floats.SpecFloat.
Import ListNotations.

Local Open Scope string_scope.
Local Open Scope list_scope.
Local Open Scope Z_scope.

(** ** IEEE-754 values *)

(** C++ [float] (binary32) and [double] (binary64). *)
Definition float := spec_float.
Definition double := spec_float.

Module F32.
Definition prec : Z := 24.
Definition emax : Z := 128.
Definition add : float -> float -> float := SFadd prec emax.
Definition sub : float -> float -> float := SFsub prec emax.
Definition mul : float -> float -> float := SFmul prec emax.
Definition div : float -> float -> float := SFdiv prec emax.
Definition neg : float -> float := SFopp.
Definition ltb : float -> float -> bool := SFltb.
Definition leb : float -> float -> bool := SFleb.
(** An integer literal or an [int] converted to [float]. *)
Definition of_Z (z : Z) : float := binary_normalize prec emax z 0 false.
(** [m * 2^e], rounded. *)
Definition of_scaled (m : Z) (e : Z) : float := binary_normalize prec emax m e false.
(** [(float) d]: a [double] rounded to [float]. *)
Definition of_double (d : double) : float :=
  match d with
  | S754_finite s m e => binary_round prec emax s m e
  | _ => d
  end.
End F32.

Module F64.
Definition prec : Z := 53.
Definition emax : Z := 1024.
Definition add : double -> double -> double := SFadd prec emax.
Definition sub : double -> double -> double := SFsub prec emax.
Definition mul : double -> double -> double := SFmul prec emax.
Definition div : double -> double -> double := SFdiv prec emax.
Definition sqrt : double -> double := SFsqrt prec emax.
Definition ltb : double -> double -> bool := SFltb.
Definition leb : double -> double -> bool := SFleb.
Definition of_Z (z : Z) : double := binary_normalize prec emax z 0 false.
Definition of_scaled (m : Z) (e : Z) : double := binary_normalize prec emax m e false.
(** [(double) f]: the promotion of a [float]; it is exact, the mantissa
    is only brought to the binary64 format. *)
Definition of_float (f : float) : double :=
  match f with
  | S754_finite s m e => binary_round prec emax s m e
  | _ => f
  end.
End F64.

(** [std::isnan] and [std::isinf]. *)
Definition isnan (x : spec_float) : bool :=
  match x with S754_nan => true | _ => false end.

Definition isinf (x : spec_float) : bool :=
  match x with S754_infinity _ => true | _ => false end.

(** Finite: a zero, a subnormal or a normal number. *)
Definition is_finite (x : spec_float) : bool :=
  match x with S754_zero _ | S754_finite _ _ _ => true | _ => false end.

(** Finite and strictly positive. *)
Definition finite_positive (x : spec_float) : bool :=
  match x with S754_finite false _ _ => true | _ => false end.

(** Not a NaN, and of sign [s] (zeros and infinities carry a sign). *)
Definition has_sign (s : bool) (x : spec_float) : bool :=
  match x with
  | S754_zero b | S754_infinity b | S754_finite b _ _ => Bool.eqb b s
  | S754_nan => false
  end.

Definition zero_f : float := S754_zero false.

(** ** OpenCV value types *)

Record Point2f := { p2x : float; p2y : float }.
Record Point3f := { p3x : float; p3y : float; p3z : float }.
Record Vec3d := { v3_0 : double; v3_1 : double; v3_2 : double }.

(** [cv::Point2f] difference: component-wise [float] subtraction. *)
Definition Point2f_sub (a b : Point2f) : Point2f :=
  {| p2x := F32.sub (p2x a) (p2x b); p2y := F32.sub (p2y a) (p2y b) |}.

(** [cv::norm] of a [cv::Point2f], computed by OpenCV in [double]:
    [std::sqrt((double)pt.x*pt.x + (double)pt.y*pt.y)]. *)
Definition norm (pt : Point2f) : double :=
  F64.sqrt (F64.add (F64.mul (F64.of_float (p2x pt)) (F64.of_float (p2x pt)))
                    (F64.mul (F64.of_float (p2y pt)) (F64.of_float (p2y pt)))).

(** [cv::Mat] holding numbers: the element depth and the rows. A matrix
    without elements is empty ([cv::Mat()]). *)
Inductive depth := CV_8U | CV_8S | CV_16U | CV_16S | CV_32S | CV_32F | CV_64F.

Record Mat := { mat_depth : depth; mat_rows : list (list spec_float) }.

Definition Mat_default : Mat := {| mat_depth := CV_8U; mat_rows := [] |}.

Definition empty (m : Mat) : bool :=
  match List.concat (mat_rows m) with [] => true | _ :: _ => false end.

(** [m.convertTo(m, CV_64F)]: every element becomes a [double]; the depths
    OpenCV stores all convert exactly. Nothing happens to an empty matrix. *)
Definition convertTo_CV_64F (m : Mat) : Mat :=
  if empty m then m
  else match mat_depth m with
       | CV_64F => m
       | _ => {| mat_depth := CV_64F;
                 mat_rows := map (map F64.of_float) (mat_rows m) |}
       end.

(** The element [m.at<double>(i, j)] when it exists. *)
Definition Mat_at (m : Mat) (i j : nat) : option double :=
  match nth_error (mat_rows m) i with
  | Some r => nth_error r j
  | None => None
  end.

Inductive PREDEFINED_DICTIONARY_NAME := DICT_4X4_50 | DICT_4X4_100 | DICT_4X4_250 | DICT_4X4_1000.

Inductive Dictionary := getPredefinedDictionary (name : PREDEFINED_DICTIONARY_NAME).

(** ** Messages *)

Record Header := { stamp_sec : Z; stamp_nanosec : Z; frame_id : string }.

(** The pixel part of [sensor_msgs::msg::Image]. *)
Record Pixels := {
  height : Z; width : Z; is_bigendian : Z; step : Z; data : list Byte.byte }.

(** [sensor_msgs::msg::Image]. *)
Record ImageMsg := { header : Header; encoding : string; pixels : Pixels }.

(** [px4_msgs::msg::DistanceSensor] (the fields of a range reading). *)
Record DistanceSensor := {
  timestamp : Z;
  min_distance : float;
  max_distance : float;
  current_distance : float }.

(** [sensor_msgs::image_encodings::BGR8]. *)
Definition BGR8 : string := "bgr8".

(** ** Effects: trace, exceptions, undefined behaviour *)

Inductive exn :=
| cv_bridge_Exception (what : string)
| cv_Exception (what : string).

Inductive severity := INFO | ERROR.

Inductive log_arg := arg_float (f : float) | arg_string (s : string).

(** What a run leaves behind, in order: [RCLCPP_INFO]/[RCLCPP_ERROR] lines
    with their arguments, the pose and drawing calls with the arguments they
    receive, and the messages given to the publisher. *)
Inductive event :=
| Log (sev : severity) (fmt : string) (args : list log_arg)
| DrawDetectedMarkers (corners : list (list Point2f)) (ids : list Z)
| SolvePnP (objectPoints : list Point3f) (imagePoints : list Point2f)
           (cameraMatrix distCoeffs : Mat)
| DrawAxis (cameraMatrix distCoeffs : Mat) (rvec tvec : Vec3d) (axis_length : float)
| Publish (msg : ImageMsg).

(** How a computation ends. [Undefined] is C++ undefined behaviour. *)
Inductive result (A : Type) :=
| Ok (a : A)
| Throw (e : exn)
| Undefined.
Arguments Ok {A} a.
Arguments Throw {A} e.
Arguments Undefined {A}.

Definition M (A : Type) : Type := list event * result A.

Definition ret {A : Type} (a : A) : M A := ([], Ok a).

Definition bind {A B : Type} (c : M A) (k : A -> M B) : M B :=
  match c with
  | (t, Ok a) => let (t', r) := k a in (t ++ t', r)
  | (t, Throw e) => (t, Throw e)
  | (t, Undefined) => (t, Undefined)
  end.

Declare Scope cpp_scope.
Delimit Scope cpp_scope with cpp.
Notation "x <- c ;; k" := (bind c (fun x => k))
  (at level 61, c at next level, right associativity) : cpp_scope.
Notation "' p <- c ;; k" := (bind c (fun x => let 'p := x in k))
  (at level 61, p pattern, c at next level, right associativity) : cpp_scope.
Notation "c ;; k" := (bind c (fun _ => k))
  (at level 61, right associativity) : cpp_scope.
Local Open Scope cpp_scope.

Definition emit (e : event) : M unit := ([e], Ok tt).

Definition log (sev : severity) (fmt : string) (args : list log_arg) : M unit :=
  emit (Log sev fmt args).

(** [v[i]] on a [std::vector]: undefined out of range. *)
Definition vector_at {A : Type} (v : list A) (i : nat) : M A :=
  ([], match nth_error v i with Some a => Ok a | None => Undefined end).

(** [m.at<double>(i, j)]: a read outside the matrix (any read of an empty
    one) is undefined. *)
Definition at_double (m : Mat) (i j : nat) : M double :=
  ([], match Mat_at m i j with Some d => Ok d | None => Undefined end).

(** [try { body } catch (const cv_bridge::Exception& e) { handler }]: no
    other exception type is caught. *)
Definition try_catch_cv_bridge (body : M unit) (handler : string -> M unit) : M unit :=
  match body with
  | (t, Throw (cv_bridge_Exception what)) =>
      let (t', r) := handler what in (t ++ t', r)
  | other => other
  end.

(** ** The libraries behind the node *)

(** A library call returns or raises. *)
Inductive outcome (A : Type) :=
| Returns (a : A)
| Raises (e : exn).
Arguments Returns {A} a.
Arguments Raises {A} e.

Definition call {A : Type} (o : outcome A) : M A :=
  ([], match o with Returns a => Ok a | Raises e => Throw e end).

(** cv_bridge and the OpenCV routines that [image_callback] calls, as
    functions of their inputs. [Image] is the pixel buffer ([cv::Mat]);
    routines that draw return the new buffer; [solvePnP] returns its
    success flag with the rotation and translation vectors. *)
Class Externals := {
  Image : Type;
  toCvCopy : ImageMsg -> string -> outcome Image;
  toPixels : Image -> Pixels;
  detectMarkers : Image -> Dictionary -> outcome (list (list Point2f) * list Z);
  drawDetectedMarkers : Image -> list (list Point2f) -> list Z -> outcome Image;
  solvePnP : list Point3f -> list Point2f -> Mat -> Mat -> outcome (bool * Vec3d * Vec3d);
  drawAxis : Image -> Mat -> Mat -> Vec3d -> Vec3d -> float -> outcome Image
}.

(** [cv_bridge::CvImage] and its [toImageMsg]. *)
Record CvImage `{Externals} := {
  cv_header : Header; cv_encoding : string; cv_image : Image }.

Definition toImageMsg `{Externals} (c : CvImage) : ImageMsg :=
  {| header := cv_header c; encoding := cv_encoding c; pixels := toPixels (cv_image c) |}.

(** [cv::FileStorage] opened for reading: the matrix under each key, the
    empty matrix under a key that is absent. A file system gives the storage
    of a path, or nothing when the file cannot be opened. *)
Definition FileStorage := string -> Mat.
Definition FileSystem := string -> option FileStorage.

(** ** The node *)

Record ArucoTrackerNode := {
  _dictionary : Dictionary;
  _ground_distance : float;
  _camera_matrix : Mat;
  _dist_coeffs : Mat }.

(** The literals [1.f] and [2.0f]. *)
Definition one_f : float := F32.of_Z 1.
Definition two_f : float := F32.of_Z 2.

(** The [float] nearest to 0.2 and the [float] nearest to 0.1. *)
Definition f_0_2 : float := F32.of_double (F64.div (F64.of_Z 2) (F64.of_Z 10)).
Definition f_0_1 : float := F32.of_double (F64.div (F64.of_Z 1) (F64.of_Z 10)).

(** [ArucoTrackerNode::ArucoTrackerNode()]. *)
Definition ArucoTrackerNode_new (disk : FileSystem) : M ArucoTrackerNode :=
  log INFO "ArucoTrackerNode :)" [] ;;
  let dictionary := getPredefinedDictionary DICT_4X4_250 in
  ' (camera_matrix, dist_coeffs) <-
    match disk "usb_cam_calib.yml" with
    | Some fs => ret (fs "camera_matrix", fs "distortion_coefficients")
    | None =>
        log ERROR "Failed to open camera calibration file" [] ;;
        ret (Mat_default, Mat_default)
    end ;;
  (if empty camera_matrix || empty dist_coeffs
   then log ERROR "Failed to load camera parameters correctly." []
   else ret tt) ;;
  ret {| _dictionary := dictionary;
         _ground_distance := one_f;
         _camera_matrix := convertTo_CV_64F camera_matrix;
         _dist_coeffs := dist_coeffs |}.

(** What the constructor finds on disk. *)
Definition opened (disk : FileSystem) : bool :=
  match disk "usb_cam_calib.yml" with Some _ => true | None => false end.

Definition loaded (disk : FileSystem) : Mat * Mat :=
  match disk "usb_cam_calib.yml" with
  | Some fs => (fs "camera_matrix", fs "distortion_coefficients")
  | None => (Mat_default, Mat_default)
  end.

(** Loading failed: no file, or a matrix is empty after opening. *)
Definition calibration_failed (disk : FileSystem) : bool :=
  negb (opened disk) || empty (fst (loaded disk)) || empty (snd (loaded disk)).

(** [ArucoTrackerNode::distance_sensor_callback]. *)
Definition distance_sensor_callback (n : ArucoTrackerNode) (msg : DistanceSensor)
  : ArucoTrackerNode :=
  {| _dictionary := _dictionary n;
     _ground_distance := current_distance msg;
     _camera_matrix := _camera_matrix n;
     _dist_coeffs := _dist_coeffs n |}.

(** [float pixel_width = cv::norm(corners[i][0] - corners[i][1]);] *)
Definition pixel_width (c0 c1 : Point2f) : float :=
  F32.of_double (norm (Point2f_sub c0 c1)).

(** [float marker_size = (pixel_width / fx) * _ground_distance;] with [fx]
    a [double]: quotient and product are computed in [double], the result is
    rounded to [float]. *)
Definition marker_size (pixel_width : float) (fx : double) (ground_distance : float) : float :=
  F32.of_double
    (F64.mul (F64.div (F64.of_float pixel_width) fx) (F64.of_float ground_distance)).

(** The guard [!std::isnan(marker_size) && !std::isinf(marker_size)]. *)
Definition guard (marker_size : float) : bool :=
  negb (isnan marker_size) && negb (isinf marker_size).

(** The four [push_back]s of the loop body. *)
Definition objectPoints (marker_size : float) : list Point3f :=
  let halfSize := F32.div marker_size two_f in
  [ {| p3x := F32.neg halfSize; p3y := halfSize; p3z := F32.of_Z 0 |};
    {| p3x := halfSize; p3y := halfSize; p3z := F32.of_Z 0 |};
    {| p3x := halfSize; p3y := F32.neg halfSize; p3z := F32.of_Z 0 |};
    {| p3x := F32.neg halfSize; p3y := F32.neg halfSize; p3z := F32.of_Z 0 |} ].

(** What the subscriptions deliver. *)
Inductive incoming :=
| image_raw (msg : ImageMsg)
| distance_sensor (msg : DistanceSensor).

Section Callbacks.
Context `{Externals}.

(** The guarded block of the loop body, for a marker whose size passed
    the guard. *)
Definition solve_and_draw (n : ArucoTrackerNode) (corners_i : list Point2f)
    (marker_size : float) (image : Image) : M Image :=
  log INFO "marker_size %f" [arg_float marker_size] ;;
  let objectPoints := objectPoints marker_size in
  log INFO "solvePnP" [] ;;
  emit (SolvePnP objectPoints corners_i (_camera_matrix n) (_dist_coeffs n)) ;;
  ' (_, rvec, tvec) <-
    call (solvePnP objectPoints corners_i (_camera_matrix n) (_dist_coeffs n)) ;;
  log INFO "drawing axis" [] ;;
  emit (DrawAxis (_camera_matrix n) (_dist_coeffs n) rvec tvec marker_size) ;;
  call (drawAxis image (_camera_matrix n) (_dist_coeffs n) rvec tvec marker_size).

(** One iteration of [for (size_t i = 0; i < ids.size(); i++)]. *)
Definition marker_body (n : ArucoTrackerNode) (corners : list (list Point2f))
    (i : nat) (image : Image) : M Image :=
  corners_i <- vector_at corners i ;;
  c0 <- vector_at corners_i 0 ;;
  c1 <- vector_at corners_i 1 ;;
  let pixel_width := pixel_width c0 c1 in
  fx <- at_double (_camera_matrix n) 0 0 ;;
  let marker_size := marker_size pixel_width fx (_ground_distance n) in
  if guard marker_size
  then solve_and_draw n corners_i marker_size image
  else ret image.

(** The loop, from index [i] with [todo] iterations left. *)
Fixpoint marker_loop (n : ArucoTrackerNode) (corners : list (list Point2f))
    (todo : nat) (i : nat) (image : Image) : M Image :=
  match todo with
  | O => ret image
  | S todo' =>
      image' <- marker_body n corners i image ;;
      marker_loop n corners todo' (S i) image'
  end.

(** The [try] block of [image_callback]. *)
Definition image_callback_try (n : ArucoTrackerNode) (msg : ImageMsg) : M unit :=
  image <- call (toCvCopy msg BGR8) ;;
  ' (corners, ids) <- call (detectMarkers image (_dictionary n)) ;;
  image <-
    (if (0 <? List.length ids)%nat
     then
       log INFO "drawing detected markers" [] ;;
       emit (DrawDetectedMarkers corners ids) ;;
       image <- call (drawDetectedMarkers image corners ids) ;;
       marker_loop n corners (List.length ids) 0 image
     else ret image) ;;
  let out_msg :=
    {| cv_header := header msg; cv_encoding := BGR8; cv_image := image |} in
  emit (Publish (toImageMsg out_msg)).

(** [ArucoTrackerNode::image_callback]. No member of the node is
    assigned, so the node after the call is the node before it. *)
Definition image_callback (n : ArucoTrackerNode) (msg : ImageMsg) : M unit :=
  try_catch_cv_bridge (image_callback_try n msg)
    (fun what => log ERROR "cv_bridge exception: %s" [arg_string what]).

(** [rclcpp::spin] on a single-threaded executor: the callbacks run one at
    a time in arrival order; an exception that leaves a callback ends the
    spin (and, uncaught in [main], the process). *)
Fixpoint spin (n : ArucoTrackerNode) (inbox : list incoming) : M ArucoTrackerNode :=
  match inbox with
  | [] => ret n
  | image_raw msg :: rest => image_callback n msg ;; spin n rest
  | distance_sensor msg :: rest => spin (distance_sensor_callback n msg) rest
  end.

(** [main]. *)
Definition main (disk : FileSystem) (inbox : list incoming) : M unit :=
  n <- ArucoTrackerNode_new disk ;;
  spin n inbox ;;
  ret tt.
End Callbacks.

(** ** Observations of a trace *)

Definition published (t : list event) : list ImageMsg :=
  flat_map (fun e => match e with Publish m => [m] | _ => [] end) t.

Definition solved (t : list event) : list (list Point3f * list Point2f) :=
  flat_map (fun e => match e with SolvePnP o c _ _ => [(o, c)] | _ => [] end) t.

Definition axes (t : list event) : list float :=
  flat_map (fun e => match e with DrawAxis _ _ _ _ len => [len] | _ => [] end) t.

Definition errors (t : list event) : list string :=
  flat_map (fun e => match e with Log ERROR fmt _ => [fmt] | _ => [] end) t.

(** The readings among the delivered messages, in order. *)
Definition readings (inbox : list incoming) : list DistanceSensor :=
  flat_map (fun m => match m with distance_sensor r => [r] | image_raw _ => [] end) inbox.

(** ** The node over libraries that keep state

    The same member functions, with every library call reading and
    changing a state [Lib] that belongs to the libraries, and with each
    callback returning the node as it leaves it. *)

Class Libraries := {
  Lib : Type;
  Buffer : Type;
  lib_toCvCopy : ImageMsg -> string -> Lib -> outcome Buffer * Lib;
  lib_toPixels : Buffer -> Pixels;
  lib_detectMarkers :
    Buffer -> Dictionary -> Lib -> outcome (list (list Point2f) * list Z) * Lib;
  lib_drawDetectedMarkers :
    Buffer -> list (list Point2f) -> list Z -> Lib -> outcome Buffer * Lib;
  lib_solvePnP :
    list Point3f -> list Point2f -> Mat -> Mat -> Lib
    -> outcome (bool * Vec3d * Vec3d) * Lib;
  lib_drawAxis :
    Buffer -> Mat -> Mat -> Vec3d -> Vec3d -> float -> Lib -> outcome Buffer * Lib
}.

(** A computation that also threads the libraries' state. *)
Definition SM `{Libraries} (A : Type) : Type := Lib -> M A * Lib.

Definition sret `{Libraries} {A : Type} (a : A) : SM A := fun l => (ret a, l).

Definition sbind `{Libraries} {A B : Type} (c : SM A) (k : A -> SM B) : SM B :=
  fun l =>
    match c l with
    | ((t, Ok a), l') => let '((t', r), l'') := k a l' in ((t ++ t', r), l'')
    | ((t, Throw e), l') => ((t, Throw e), l')
    | ((t, Undefined), l') => ((t, Undefined), l')
    end.

(** A step that does not touch the libraries. *)
Definition node_step `{Libraries} {A : Type} (c : M A) : SM A := fun l => (c, l).

(** A library call. *)
Definition lib_call `{Libraries} {A : Type} (f : Lib -> outcome A * Lib) : SM A :=
  fun l => let (o, l') := f l in (call o, l').

Definition stry_catch_cv_bridge `{Libraries}
    (body : SM unit) (handler : string -> SM unit) : SM unit :=
  fun l =>
    match body l with
    | ((t, Throw (cv_bridge_Exception what)), l') =>
        let '((t', r), l'') := handler what l' in ((t ++ t', r), l'')
    | other => other
    end.

Declare Scope lib_scope.
Delimit Scope lib_scope with lib.
Notation "x <- c ;; k" := (sbind c (fun x => k))
  (at level 61, c at next level, right associativity) : lib_scope.
Notation "' p <- c ;; k" := (sbind c (fun x => let 'p := x in k))
  (at level 61, p pattern, c at next level, right associativity) : lib_scope.
Notation "c ;; k" := (sbind c (fun _ => k))
  (at level 61, right associativity) : lib_scope.

Section Members.
Context `{Libraries}.
Local Open Scope lib_scope.

Definition solve_and_draw_m (n : ArucoTrackerNode) (corners_i : list Point2f)
    (marker_size : float) (image : Buffer) : SM Buffer :=
  node_step (log INFO "marker_size %f" [arg_float marker_size]) ;;
  let objectPoints := objectPoints marker_size in
  node_step (log INFO "solvePnP" []) ;;
  node_step (emit (SolvePnP objectPoints corners_i (_camera_matrix n) (_dist_coeffs n))) ;;
  ' (_, rvec, tvec) <-
    lib_call (lib_solvePnP objectPoints corners_i (_camera_matrix n) (_dist_coeffs n)) ;;
  node_step (log INFO "drawing axis" []) ;;
  node_step (emit (DrawAxis (_camera_matrix n) (_dist_coeffs n) rvec tvec marker_size)) ;;
  lib_call (lib_drawAxis image (_camera_matrix n) (_dist_coeffs n) rvec tvec marker_size).

Definition marker_body_m (n : ArucoTrackerNode) (corners : list (list Point2f))
    (i : nat) (image : Buffer) : SM Buffer :=
  corners_i <- node_step (vector_at corners i) ;;
  c0 <- node_step (vector_at corners_i 0) ;;
  c1 <- node_step (vector_at corners_i 1) ;;
  let pixel_width := pixel_width c0 c1 in
  fx <- node_step (at_double (_camera_matrix n) 0 0) ;;
  let marker_size := marker_size pixel_width fx (_ground_distance n) in
  if guard marker_size
  then solve_and_draw_m n corners_i marker_size image
  else sret image.

Fixpoint marker_loop_m (n : ArucoTrackerNode) (corners : list (list Point2f))
    (todo : nat) (i : nat) (image : Buffer) : SM Buffer :=
  match todo with
  | O => sret image
  | S todo' =>
      image' <- marker_body_m n corners i image ;;
      marker_loop_m n corners todo' (S i) image'
  end.

Definition image_callback_try_m (n : ArucoTrackerNode) (msg : ImageMsg) : SM unit :=
  image <- lib_call (lib_toCvCopy msg BGR8) ;;
  ' (corners, ids) <- lib_call (lib_detectMarkers image (_dictionary n)) ;;
  image <-
    (if (0 <? List.length ids)%nat
     then
       node_step (log INFO "drawing detected markers" []) ;;
       node_step (emit (DrawDetectedMarkers corners ids)) ;;
       image <- lib_call (lib_drawDetectedMarkers image corners ids) ;;
       marker_loop_m n corners (List.length ids) 0 image
     else sret image) ;;
  node_step
    (emit (Publish {| header := header msg; encoding := BGR8;
                      pixels := lib_toPixels image |})).

(** [ArucoTrackerNode::image_callback] as a member function: the result is
    the node after the call. The source assigns no member, in the [try]
    block or in the handler, so that node is the one it was called on. *)
Definition image_callback_m (n : ArucoTrackerNode) (msg : ImageMsg) : SM ArucoTrackerNode :=
  stry_catch_cv_bridge (image_callback_try_m n msg)
    (fun what => node_step (log ERROR "cv_bridge exception: %s" [arg_string what])) ;;
  sret n.

(** [ArucoTrackerNode::distance_sensor_callback] as a member function. *)
Definition distance_sensor_callback_m (n : ArucoTrackerNode) (msg : DistanceSensor)
  : SM ArucoTrackerNode :=
  sret (distance_sensor_callback n msg).

(** [rclcpp::spin]: every callback gets the node the previous one left. *)
Fixpoint spin_m (n : ArucoTrackerNode) (inbox : list incoming) : SM ArucoTrackerNode :=
  match inbox with
  | [] => sret n
  | image_raw msg :: rest => n' <- image_callback_m n msg ;; spin_m n' rest
  | distance_sensor msg :: rest => n' <- distance_sensor_callback_m n msg ;; spin_m n' rest
  end.



End Members.

(** The routines of [E] with a state [S] that every call changes by
    [tick] and that has no other use. *)
Definition with_state (E : Externals) (S : Type) (tick : S -> S) : Libraries :=
  {| Lib := S;
     Buffer := Image;
     lib_toCvCopy := fun msg enc l => (toCvCopy msg enc, tick l);
     lib_toPixels := toPixels;
     lib_detectMarkers := fun image d l => (detectMarkers image d, tick l);
     lib_drawDetectedMarkers :=
       fun image c ids l => (drawDetectedMarkers image c ids, tick l);
     lib_solvePnP := fun o c K D l => (solvePnP o c K D, tick l);
     lib_drawAxis := fun image K D r t len l => (drawAxis image K D r t len, tick l) |}.

(** Over such libraries: the trace and the result of [c] are those of
    [p], from every state. *)
Definition agrees {E : Externals} {S : Type} {tick : S -> S} {A : Type}
    (c : @SM (with_state E S tick) A) (p : M A) : Prop :=
  forall l, fst (c l) = p.

(** ** What a frame is expected to leave behind *)

(** The size the loop body estimates for a marker with corners [c], when
    the two corners and entry (0,0) of the camera matrix can be read. *)
Definition size_of (n : ArucoTrackerNode) (c : list Point2f) : option float :=
  match c, Mat_at (_camera_matrix n) 0 0 with
  | c0 :: c1 :: _, Some fx =>
      Some (marker_size (pixel_width c0 c1) fx (_ground_distance n))
  | _, _ => None
  end.

(** The solver calls and the axis lengths of the markers [cs] whose size
    passes the guard, in the order of [cs]. *)
Definition expected_solves (n : ArucoTrackerNode) (cs : list (list Point2f))
  : list (list Point3f * list Point2f) :=
  flat_map (fun c => match size_of n c with
                     | Some s => if guard s then [(objectPoints s, c)] else []
                     | None => []
                     end) cs.

Definition expected_axes (n : ArucoTrackerNode) (cs : list (list Point2f)) : list float :=
  flat_map (fun c => match size_of n c with
                     | Some s => if guard s then [s] else []
                     | None => []
                     end) cs.

(** The frames among the delivered messages, in order. *)
Definition frames (inbox : list incoming) : list ImageMsg :=
  flat_map (fun m => match m with image_raw f => [f] | distance_sensor _ => [] end) inbox.

(** Each frame that decodes, re-encoded as it is. *)
Definition republished `{Externals} (fs : list ImageMsg) : list ImageMsg :=
  flat_map (fun f => match toCvCopy f BGR8 with
                     | Returns image =>
                         [{| header := header f; encoding := BGR8;
                             pixels := toPixels image |}]
                     | Raises _ => []
                     end) fs.

(** The shape of a frame's pose events: every axis has a finite length,
    every solver call has object points built from a finite size, and the
    axes are as many as the solver calls, or one fewer when the last solver
    call or its axis drawing raised. *)
Definition pose_events_tidy (t : list event) (finished : bool) : Prop :=
  Forall (fun s => is_finite s = true) (axes t)
  /\ Forall (fun oc => exists s, is_finite s = true /\ fst oc = objectPoints s) (solved t)
  /\ (List.length (axes t) <= List.length (solved t))%nat
  /\ (List.length (solved t) <= List.length (axes t) + (if finished then 0 else 1))%nat.

Definition finished {A : Type} (r : result A) : bool :=
  match r with Ok _ => true | _ => false end.

(** NaN, or not negative. *)
Definition nan_or_nonneg (x : spec_float) : bool := isnan x || has_sign false x.

(** ** A bench instance of the libraries

    Used to run the callbacks on concrete inputs. The pixel buffer is the
    message's pixel record; the detector reports [found] in every frame;
    drawing appends one byte to the buffer; the solver is [pnp]; the axis
    drawing is [axis]. *)
Module Bench.
Definition mark (b : Byte.byte) (p : Pixels) : Pixels :=
  {| height := height p; width := width p; is_bigendian := is_bigendian p;
     step := step p; data := data p ++ [b] |}.

Definition decode (msg : ImageMsg) (target : string) : outcome Pixels :=
  if String.eqb (encoding msg) ""
  then Raises (cv_bridge_Exception "Unrecognized image encoding []")
  else Returns (pixels msg).

Definition libs
    (found : list (list Point2f) * list Z)
    (pnp : list Point3f -> list Point2f -> Mat -> Mat -> outcome (bool * Vec3d * Vec3d))
    (axis : float -> outcome unit) : Externals :=
  {| Image := Pixels;
     toCvCopy := decode;
     toPixels := fun p => p;
     detectMarkers := fun _ _ => Returns found;
     drawDetectedMarkers := fun p _ _ => Returns (mark Byte.x01 p);
     solvePnP := pnp;
     drawAxis := fun p _ _ _ _ len =>
       match axis len with
       | Returns _ => Returns (mark Byte.x02 p)
       | Raises e => Raises e
       end |}.

Definition pt (x y : Z) : Point2f := {| p2x := F32.of_Z x; p2y := F32.of_Z y |}.

(** A marker whose top edge is 50 pixels wide, and a second one. *)
Definition markerA : list Point2f := [pt 100 100; pt 150 100; pt 150 150; pt 100 150].
Definition markerB : list Point2f := [pt 300 200; pt 340 200; pt 340 240; pt 300 240].

(** A marker whose top edge is 2^127 pixels wide. *)
Definition markerFar : list Point2f :=
  [pt 0 0; {| p2x := F32.of_scaled 1 127; p2y := F32.of_Z 0 |};
   {| p2x := F32.of_scaled 1 127; p2y := F32.of_scaled 1 127 |};
   {| p2x := F32.of_Z 0; p2y := F32.of_scaled 1 127 |}].

Definition zero3 : Vec3d :=
  {| v3_0 := F64.of_Z 0; v3_1 := F64.of_Z 0; v3_2 := F64.of_Z 0 |}.

Definition pnp_ok (_ : list Point3f) (_ : list Point2f) (_ _ : Mat)
  : outcome (bool * Vec3d * Vec3d) := Returns (true, zero3, zero3).

Definition pnp_false (_ : list Point3f) (_ : list Point2f) (_ _ : Mat)
  : outcome (bool * Vec3d * Vec3d) := Returns (false, zero3, zero3).

(** A solver that raises on markerA's corners and solves the others. *)
Definition pnp_raises_on_A (_ : list Point3f) (imagePoints : list Point2f) (_ _ : Mat)
  : outcome (bool * Vec3d * Vec3d) :=
  match imagePoints with
  | p :: _ =>
      if SFeqb (p2x p) (F32.of_Z 100)
      then Raises (cv_Exception "solvePnP")
      else Returns (true, zero3, zero3)
  | [] => Raises (cv_Exception "solvePnP")
  end.

Definition axis_ok (_ : float) : outcome unit := Returns tt.


(** Intrinsics with [fx = fy = 500], principal point (320, 240). *)
Definition K500 : Mat :=
  {| mat_depth := CV_64F;
     mat_rows := [ [F64.of_Z 500; F64.of_Z 0; F64.of_Z 320];
                   [F64.of_Z 0; F64.of_Z 500; F64.of_Z 240];
                   [F64.of_Z 0; F64.of_Z 0; F64.of_Z 1] ] |}.

Definition D5 : Mat :=
  {| mat_depth := CV_64F;
     mat_rows := [ [F64.of_Z 0; F64.of_Z 0; F64.of_Z 0; F64.of_Z 0; F64.of_Z 0] ] |}.

Definition node (altitude : float) (K D : Mat) : ArucoTrackerNode :=
  {| _dictionary := getPredefinedDictionary DICT_4X4_250;
     _ground_distance := altitude;
     _camera_matrix := K;
     _dist_coeffs := D |}.

Definition frame (sec : Z) : ImageMsg :=
  {| header := {| stamp_sec := sec; stamp_nanosec := 0; frame_id := "camera" |};
     encoding := "rgb8";
     pixels := {| height := 480; width := 640; is_bigendian := 0; step := 1920;
                  data := [] |} |}.

Definition reading (d : float) : DistanceSensor :=
  {| timestamp := 0; min_distance := F32.of_Z 0; max_distance := F32.of_Z 100;
     current_distance := d |}.

(** A calibration file with both matrices, one without the distortion
    coefficients, and a disk without the file. *)
Definition storage (K D : Mat) : FileStorage :=
  fun key =>
    if String.eqb key "camera_matrix" then K
    else if String.eqb key "distortion_coefficients" then D
    else Mat_default.

Definition disk_with (fs : FileStorage) : FileSystem :=
  fun path => if String.eqb path "usb_cam_calib.yml" then Some fs else None.

Definition disk_empty : FileSystem := fun _ => None.

End Bench.

(** ** Signs of rounded results *)

Section RoundingSigns.
Variables prec emax : Z.

Lemma shr_1_nonneg mrs : 0 <= shr_m mrs -> 0 <= shr_m (shr_1 mrs).
Proof.
  destruct mrs as [m r s]; simpl.
  destruct m as [|p|p]; intros H; try lia; simpl; trivial.
  - destruct p; simpl; lia.
Qed.

Lemma iter_pos_invariant {A : Type} (P : A -> Prop) (f : A -> A) :
  (forall x, P x -> P (f x)) ->
  forall n x, P x -> P (iter_pos f n x).
Proof.
  intros Hf; induction n as [n IH|n IH|]; intros x Hx; simpl; auto.
Qed.

Lemma shr_nonneg mrs e n : 0 <= shr_m mrs -> 0 <= shr_m (fst (shr mrs e n)).
Proof.
  intros H; unfold shr; destruct n; simpl; trivial.
  apply (iter_pos_invariant (fun r => 0 <= shr_m r)); auto using shr_1_nonneg.
Qed.

Lemma shr_record_of_loc_m m l : shr_m (shr_record_of_loc m l) = m.
Proof. destruct l as [|[| |]]; reflexivity. Qed.

Lemma shr_fexp_nonneg m e l :
  0 <= m -> 0 <= shr_m (fst (shr_fexp prec emax m e l)).
Proof.
  intros H; unfold shr_fexp; apply shr_nonneg.
  now rewrite shr_record_of_loc_m.
Qed.

Lemma round_nearest_even_nonneg m l : 0 <= m -> 0 <= round_nearest_even m l.
Proof.
  intros H; unfold round_nearest_even.
  destruct l as [|[| |]]; try lia.
  destruct (Z.even m); lia.
Qed.

(** Rounding a non-negative mantissa never makes a NaN and keeps the sign. *)
Lemma binary_round_aux_sign sx mx ex lx :
  0 <= mx -> has_sign sx (binary_round_aux prec emax sx mx ex lx) = true.
Proof.
  intros H; unfold binary_round_aux.
  pose proof (shr_fexp_nonneg mx ex lx H) as H1.
  destruct (shr_fexp prec emax mx ex lx) as [mrs' e']; simpl in H1.
  pose proof (shr_fexp_nonneg _ e' loc_Exact
                (round_nearest_even_nonneg _ (loc_of_shr_record mrs') H1)) as H2.
  destruct (shr_fexp prec emax _ e' loc_Exact) as [mrs'' e'']; simpl in H2.
  destruct (shr_m mrs'') as [|m|m]; simpl.
  - apply eqb_reflx.
  - destruct (e'' <=? emax - prec); simpl; apply eqb_reflx.
  - lia.
Qed.

Lemma binary_round_sign sx mx ex :
  has_sign sx (binary_round prec emax sx mx ex) = true.
Proof.
  unfold binary_round.
  destruct (shl_align mx ex _) as [mz ez].
  apply binary_round_aux_sign; lia.
Qed.

Lemma SFdiv_core_binary_nonneg mx ex my ey :
  0 <= fst (fst (SFdiv_core_binary prec emax (Zpos mx) ex (Zpos my) ey)).
Proof.
  unfold SFdiv_core_binary.
  set (s := ex - ey - _).
  set (m' := match s with Zpos _ => Z.shiftl (Zpos mx) s | Z0 => Zpos mx | Zneg _ => 0 end).
  assert (Hm : 0 <= m').
  { unfold m'; destruct s; try lia. apply Z.shiftl_nonneg; lia. }
  pose proof (Z.div_pos m' (Zpos my) Hm ltac:(lia)) as Hq.
  unfold Z.div in Hq.
  destruct (Z.div_eucl m' (Zpos my)) as [q r]; simpl; exact Hq.
Qed.

(** Finite operands: the quotient and the product carry the exclusive-or of
    the operands' signs and are never NaN (they may be zero or infinite). *)
Lemma SFdiv_finite_sign sx mx ex sy my ey :
  has_sign (xorb sx sy)
    (SFdiv prec emax (S754_finite sx mx ex) (S754_finite sy my ey)) = true.
Proof.
  unfold SFdiv.
  pose proof (SFdiv_core_binary_nonneg mx ex my ey) as H.
  destruct (SFdiv_core_binary prec emax (Zpos mx) ex (Zpos my) ey) as [[mz ez] lz].
  simpl in H. now apply binary_round_aux_sign.
Qed.

Lemma SFmul_finite_sign sx mx ex sy my ey :
  has_sign (xorb sx sy)
    (SFmul prec emax (S754_finite sx mx ex) (S754_finite sy my ey)) = true.
Proof. unfold SFmul; apply binary_round_aux_sign; lia. Qed.
End RoundingSigns.

(** Conversions keep NaN-ness and the sign. *)
Lemma of_double_sign s d : has_sign s d = true -> has_sign s (F32.of_double d) = true.
Proof.
  destruct d as [b|b| |b m e]; simpl; trivial.
  intros H; apply eqb_prop in H; subst b. apply binary_round_sign.
Qed.

(** A binary32 value promotes to a finite binary64 value: no rounding, no
    overflow, no underflow. *)
Lemma digits2_pos_iter_xO m d :
  Zpos (digits2_pos (Pos.iter xO m d)) = Zpos (digits2_pos m) + Zpos d.
Proof.
  induction d as [|d IH] using Pos.peano_ind.
  - simpl. lia.
  - rewrite Pos.iter_succ. simpl digits2_pos. lia.
Qed.

Lemma of_float_finite s m e :
  bounded F32.prec F32.emax m e = true ->
  exists m' e', F64.of_float (S754_finite s m e) = S754_finite s m' e'.
Proof.
  unfold bounded, canonical_mantissa, F32.prec, F32.emax.
  intros Hb. apply andb_prop in Hb as [Hc He].
  apply Z.eqb_eq in Hc. apply Z.leb_le in He.
  unfold fexp, emin in Hc.
  set (d0 := Zpos (digits2_pos m)) in *.
  assert (Hd0 : 0 < d0) by (unfold d0; lia).
  unfold F64.of_float, binary_round, F64.prec, F64.emax.
  fold d0.
  set (E := fexp 53 1024 (d0 + e)).
  assert (HE : E < e /\ E <= 75) by (unfold E, fexp, emin; lia).
  unfold shl_align.
  destruct (E - e) as [|p|p] eqn:Hs; try lia.
  set (mz := Pos.iter xO m p).
  assert (Hdz : Zpos (digits2_pos mz) + E = d0 + e).
  { unfold mz. rewrite digits2_pos_iter_xO. fold d0. lia. }
  assert (Hn : forall x, x = Zpos (digits2_pos mz) + E -> fexp 53 1024 x - E = 0).
  { intros x ->. unfold E, fexp, emin in *. lia. }
  unfold binary_round_aux, shr_fexp.
  simpl Zdigits2.
  rewrite (Hn _ eq_refl).
  cbn [shr shr_record_of_loc round_nearest_even loc_of_shr_record shr_m shr_r shr_s Zdigits2].
  rewrite (Hn _ eq_refl).
  cbn [shr shr_record_of_loc shr_m].
  replace (E <=? 1024 - 53) with true by (symmetry; apply Z.leb_le; lia).
  now exists mz, E.
Qed.

(** A value that fills the 24-bit mantissa is left as it is by rounding,
    and halving a normal [float] above the least binade is exact. *)
Lemma div_eucl_exact a b : 0 < b -> Z.div_eucl (a * b) b = (a, 0).
Proof.
  intros Hb.
  pose proof (Z.div_mul a b ltac:(lia)) as Hq.
  pose proof (Z.mod_mul a b ltac:(lia)) as Hr.
  unfold Z.div, Z.modulo in Hq, Hr.
  destruct (Z.div_eucl (a * b) b) as [q r]. now subst.
Qed.

Lemma binary_round_aux_exact sg m e :
  Zpos (digits2_pos m) = 24 -> -149 <= e <= 104 ->
  binary_round_aux 24 128 sg (Zpos m) e loc_Exact = S754_finite sg m e.
Proof.
  intros Hd He.
  assert (Hn : forall x, x = 24 + e -> fexp 24 128 x - e = 0).
  { intros x ->. unfold fexp, emin. lia. }
  unfold binary_round_aux, shr_fexp. cbn [Zdigits2]. rewrite Hd.
  rewrite (Hn _ eq_refl).
  cbn [shr shr_record_of_loc round_nearest_even loc_of_shr_record shr_m shr_r shr_s Zdigits2].
  rewrite Hd, (Hn _ eq_refl).
  cbn [shr shr_record_of_loc shr_m].
  replace (e <=? 128 - 24) with true by (symmetry; apply Z.leb_le; lia).
  reflexivity.
Qed.

Lemma binary_round_aux_exact_double sg m e :
  Zpos (digits2_pos m) = 24 -> -150 <= e <= 103 ->
  binary_round_aux 24 128 sg (Zpos m~0) e loc_Exact = S754_finite sg m (e + 1).
Proof.
  intros Hd He.
  assert (Hd' : Zpos (digits2_pos m~0) = 25) by (cbn [digits2_pos]; lia).
  assert (Hn : forall x, x = 25 + e -> fexp 24 128 x - e = 1).
  { intros x ->. unfold fexp, emin. lia. }
  assert (Hn' : forall x, x = 24 + (e + 1) -> fexp 24 128 x - (e + 1) = 0).
  { intros x ->. unfold fexp, emin. lia. }
  unfold binary_round_aux, shr_fexp. cbn [Zdigits2]. rewrite Hd'.
  rewrite (Hn _ eq_refl).
  cbn [shr iter_pos shr_1 shr_record_of_loc round_nearest_even loc_of_shr_record
       shr_m shr_r shr_s Zdigits2 orb].
  rewrite Hd, (Hn' _ eq_refl).
  cbn [shr shr_record_of_loc shr_m].
  replace (e + 1 <=? 128 - 24) with true by (symmetry; apply Z.leb_le; lia).
  reflexivity.
Qed.

Lemma half_exact sg m e :
  Zpos (digits2_pos m) = 24 -> -148 <= e <= 104 ->
  F32.div (S754_finite sg m e) two_f = S754_finite sg m (e - 1).
Proof.
  intros Hd He.
  change two_f with (S754_finite false 8388608 (-22)).
  unfold F32.div, SFdiv, SFdiv_core_binary, F32.prec, F32.emax.
  cbn [Zdigits2]. rewrite Hd.
  change (Zpos (digits2_pos 8388608)) with 24.
  rewrite xorb_false_r.
  assert (Hmin : forall x y, x = 24 + e - (24 + -22) -> y = e - -22 ->
             Z.min (fexp 24 128 x) y = Z.max (e - 2) (-149)).
  { intros x y -> ->. unfold fexp, emin. lia. }
  rewrite !(Hmin _ _ eq_refl eq_refl).
  destruct (Z.eq_dec e (-148)) as [->|Hne].
  - change (Z.max (-148 - 2) (-149)) with (-149).
    change (-148 - -22 - -149) with 23.
    rewrite Z.shiftl_mul_pow2 by lia.
    change (2 ^ 23) with 8388608.
    rewrite div_eucl_exact by lia.
    change (new_location 8388608 0) with loc_Exact.
    now rewrite binary_round_aux_exact by lia.
  - replace (Z.max (e - 2) (-149)) with (e - 2) by lia.
    replace (e - -22 - (e - 2)) with 24 by lia.
    rewrite Z.shiftl_mul_pow2 by lia.
    change (2 ^ 24) with (2 * 8388608).
    rewrite Z.mul_assoc, div_eucl_exact by lia.
    change (new_location 8388608 0) with loc_Exact.
    replace (Z.pos m * 2) with (Z.pos m~0) by lia.
    rewrite binary_round_aux_exact_double by lia.
    f_equal. lia.
Qed.

(** ** The scale estimate (C1) *)

Lemma marker_body_unfold `{Externals} n corners i image corners_i c0 c1 fx :
  nth_error corners i = Some corners_i ->
  nth_error corners_i 0 = Some c0 ->
  nth_error corners_i 1 = Some c1 ->
  Mat_at (_camera_matrix n) 0 0 = Some fx ->
  marker_body n corners i image =
    let s := marker_size (pixel_width c0 c1) fx (_ground_distance n) in
    if guard s then solve_and_draw n corners_i s image else ret image.
Proof.
  intros Hi H0 H1 Hfx.
  unfold marker_body, vector_at, at_double.
  rewrite Hi. cbn [bind]. rewrite H0. cbn [bind]. rewrite H1. cbn [bind].
  rewrite Hfx. cbn [bind].
  destruct (guard _).
  - destruct (solve_and_draw _ _ _ _) as [t r]. reflexivity.
  - reflexivity.
Qed.

(** Positive finite operands give a result that is not NaN and not negative. *)
Lemma marker_size_sign pw fx a :
  finite_positive pw = true ->
  finite_positive fx = true ->
  finite_positive a = true ->
  valid_binary F32.prec F32.emax a = true ->
  has_sign false (marker_size pw fx a) = true.
Proof.
  intros Hpw Hfx Ha Hva.
  destruct pw as [?|?| |[|] mp ep]; try discriminate.
  destruct fx as [?|?| |[|] mf ef]; try discriminate.
  destruct a as [?|?| |[|] ma ea]; try discriminate.
  simpl in Hva.
  destruct (of_float_finite false ma ea Hva) as (ma' & ea' & Hda).
  unfold marker_size. rewrite Hda.
  apply of_double_sign.
  pose proof (binary_round_sign F64.prec F64.emax false mp ep) as Hp.
  change (binary_round F64.prec F64.emax false mp ep)
    with (F64.of_float (S754_finite false mp ep)) in Hp.
  destruct (F64.of_float (S754_finite false mp ep)) as [b|b| |b m e];
    simpl in Hp; try discriminate; apply eqb_prop in Hp; subst b.
  - reflexivity.
  - reflexivity.
  - pose proof (SFdiv_finite_sign F64.prec F64.emax false m e false mf ef) as Hq.
    unfold F64.div.
    destruct (SFdiv F64.prec F64.emax (S754_finite false m e) (S754_finite false mf ef))
      as [b|b| |b mq eq_]; simpl in Hq; try discriminate;
      apply eqb_prop in Hq; subst b.
    + reflexivity.
    + reflexivity.
    + apply (SFmul_finite_sign F64.prec F64.emax false mq eq_ false ma' ea').
Qed.

(** C1 (as amended). For a marker with corners [c0], [c1], ... read at
    index [i], focal length [fx] read from entry (0,0) of the camera matrix
    and stored altitude [a], the size the loop body works with is
    [(float)(((double)pixel_width / fx) * (double)a)] where [pixel_width] is
    [(float) sqrt(dx*dx + dy*dy)] for the [float] differences [dx], [dy] of
    [c0] and [c1]: the body is the guarded block run on that value. For
    positive finite [pixel_width], [fx] and [a] the value is not NaN and not
    negative: it is a positive finite number, or +0 or +infinity. *)
Theorem marker_size_is_pinhole_estimate `{Externals}
    (n : ArucoTrackerNode) (corners : list (list Point2f)) (i : nat) (image : Image)
    (corners_i : list Point2f) (c0 c1 : Point2f) (fx : double) :
  nth_error corners i = Some corners_i ->
  nth_error corners_i 0 = Some c0 ->
  nth_error corners_i 1 = Some c1 ->
  Mat_at (_camera_matrix n) 0 0 = Some fx ->
  let a := _ground_distance n in
  let dx := F32.sub (p2x c0) (p2x c1) in
  let dy := F32.sub (p2y c0) (p2y c1) in
  let pw :=
    F32.of_double
      (F64.sqrt (F64.add (F64.mul (F64.of_float dx) (F64.of_float dx))
                         (F64.mul (F64.of_float dy) (F64.of_float dy)))) in
  let s := F32.of_double (F64.mul (F64.div (F64.of_float pw) fx) (F64.of_float a)) in
  marker_body n corners i image
    = (if guard s then solve_and_draw n corners_i s image else ret image)
  /\ (finite_positive pw = true -> finite_positive fx = true ->
      finite_positive a = true -> valid_binary F32.prec F32.emax a = true ->
      has_sign false s = true).
Proof.
  intros Hi H0 H1 Hfx a dx dy pw s. split.
  - now rewrite (marker_body_unfold n corners i image corners_i c0 c1 fx).
  - intros Hpw Hf Ha Hv. now apply marker_size_sign.
Qed.

(** At altitude 2, a 50-pixel edge and [fx = 500] the estimate is the
    [float] nearest to 0.2. *)
Lemma marker_size_is_pinhole_estimate_witness :
  let E := Bench.libs ([Bench.markerA], [7]) Bench.pnp_ok Bench.axis_ok in
  let n := Bench.node (F32.of_Z 2) Bench.K500 Bench.D5 in
  let s := F32.of_double (F64.div (F64.of_Z 2) (F64.of_Z 10)) in
  @marker_body E n [Bench.markerA] 0 (pixels (Bench.frame 1))
    = @solve_and_draw E n Bench.markerA s (pixels (Bench.frame 1))
  /\ has_sign false s = true.
Proof.
  intros E n s.
  destruct (@marker_size_is_pinhole_estimate E n [Bench.markerA] 0%nat
              (pixels (Bench.frame 1)) Bench.markerA
              (Bench.pt 100 100) (Bench.pt 150 100) (F64.of_Z 500)
              eq_refl eq_refl eq_refl eq_refl) as [Hbody Hsign].
  split.
  - exact Hbody.
  - apply Hsign; reflexivity.
Defined.

(** C1 fails as stated: with positive finite operands the estimate is
    infinite when the product overflows [float] (one-pixel edge, altitude 1,
    [fx = 2^-200]) and zero when it underflows (one-pixel edge, [fx = 500],
    altitude [2^-149], the least positive [float]). *)
Lemma marker_size_not_always_finite_positive :
  let pw := pixel_width (Bench.pt 0 0) (Bench.pt 1 0) in
  (finite_positive pw = true /\
   finite_positive (F64.of_scaled 1 (-200)) = true /\
   finite_positive one_f = true /\
   marker_size pw (F64.of_scaled 1 (-200)) one_f = S754_infinity false /\
   finite_positive (marker_size pw (F64.of_scaled 1 (-200)) one_f) = false)
  /\
  (finite_positive (F64.of_Z 500) = true /\
   finite_positive (F32.of_scaled 1 (-149)) = true /\
   valid_binary F32.prec F32.emax (F32.of_scaled 1 (-149)) = true /\
   marker_size pw (F64.of_Z 500) (F32.of_scaled 1 (-149)) = S754_zero false /\
   finite_positive (marker_size pw (F64.of_Z 500) (F32.of_scaled 1 (-149))) = false).
Proof. vm_compute. repeat split. Qed.

(** ** The altitude state (C3, C8) *)

(** C3 (as amended). Every sample overwrites the stored altitude: after
    [distance_sensor_callback] the stored value is the sample's
    [current_distance], whatever its sign or value, and the rest of the node
    is as before; the scale estimate of every marker handled next is
    computed from that value. *)
Theorem distance_sensor_callback_overwrites `{Externals}
    (n : ArucoTrackerNode) (msg : DistanceSensor) :
  let n' := distance_sensor_callback n msg in
  _ground_distance n' = current_distance msg
  /\ _dictionary n' = _dictionary n
  /\ _camera_matrix n' = _camera_matrix n
  /\ _dist_coeffs n' = _dist_coeffs n
  /\ (forall inbox, spin n (distance_sensor msg :: inbox) = spin n' inbox)
  /\ (forall corners i image corners_i c0 c1 fx,
        nth_error corners i = Some corners_i ->
        nth_error corners_i 0 = Some c0 ->
        nth_error corners_i 1 = Some c1 ->
        Mat_at (_camera_matrix n) 0 0 = Some fx ->
        marker_body n' corners i image
          = let s := marker_size (pixel_width c0 c1) fx (current_distance msg) in
            if guard s then solve_and_draw n' corners_i s image else ret image).
Proof.
  intros n'. repeat (split; [reflexivity|]).
  intros corners i image corners_i c0 c1 fx Hi H0 H1 Hfx.
  now rewrite (marker_body_unfold n' corners i image corners_i c0 c1 fx).
Qed.

(** After a reading of -1 the size estimated for markerA is the [float]
    -0.1 and the solver is given the square built from it. *)
Lemma distance_sensor_callback_overwrites_witness :
  let E := Bench.libs ([Bench.markerA], [7]) Bench.pnp_ok Bench.axis_ok in
  let n := Bench.node one_f Bench.K500 Bench.D5 in
  let n' := distance_sensor_callback n (Bench.reading (F32.of_Z (-1))) in
  @marker_body E n' [Bench.markerA] 0 (pixels (Bench.frame 1))
    = @solve_and_draw E n' Bench.markerA (F32.neg f_0_1) (pixels (Bench.frame 1)).
Proof.
  intros E n n'.
  destruct (@distance_sensor_callback_overwrites E n (Bench.reading (F32.of_Z (-1))))
    as (_ & _ & _ & _ & _ & Hbody).
  exact (Hbody [Bench.markerA] 0%nat (pixels (Bench.frame 1)) Bench.markerA
               (Bench.pt 100 100) (Bench.pt 150 100) (F64.of_Z 500)
               eq_refl eq_refl eq_refl eq_refl).
Defined.

(** C3 fails as stated: a reading of -1 replaces the stored altitude 1. *)
Lemma negative_reading_is_stored :
  let n := Bench.node one_f Bench.K500 Bench.D5 in
  let msg := Bench.reading (F32.of_Z (-1)) in
  F32.ltb (current_distance msg) zero_f = true
  /\ _ground_distance (distance_sensor_callback n msg) = F32.of_Z (-1)
  /\ _ground_distance (distance_sensor_callback n msg) <> _ground_distance n.
Proof. repeat split. vm_compute. discriminate. Qed.

Lemma last_cons {A : Type} (x : A) (l : list A) (d : A) : last (x :: l) d = last l x.
Proof.
  revert x d; induction l as [|y l IH]; intros x d; [reflexivity|].
  change (last (x :: y :: l) d) with (last (y :: l) d).
  now rewrite (IH y d), (IH y x).
Qed.

Lemma ground_distance_fold (rs : list DistanceSensor) (n : ArucoTrackerNode) :
  _ground_distance (fold_left distance_sensor_callback rs n)
    = last (map current_distance rs) (_ground_distance n).
Proof.
  revert n; induction rs as [|r rs IH]; intros n; [reflexivity|].
  cbn [fold_left map]. rewrite IH, last_cons. reflexivity.
Qed.


(** A spin that ends normally leaves the node that the readings alone make:
    frames do not change it. *)
Lemma spin_node `{Externals} (inbox : list incoming) :
  forall n t n', spin n inbox = (t, Ok n') ->
                 n' = fold_left distance_sensor_callback (readings inbox) n.
Proof.
  induction inbox as [|m rest IH]; intros n t n' Hs.
  - cbn in Hs. now inversion Hs.
  - destruct m as [msg|msg]; cbn [spin] in Hs.
    + unfold bind in Hs.
      destruct (image_callback n msg) as [t1 [[]|e|]]; try discriminate.
      destruct (spin n rest) as [t2 r2] eqn:Hr.
      inversion Hs; subst. cbn [readings flat_map app].
      now apply (IH n t2).
    + cbn [readings flat_map app fold_left].
      now apply (IH _ t).
Qed.

(** The constructor always returns a node, with altitude [1.f]. *)
Lemma ArucoTrackerNode_new_total (disk : FileSystem) :
  exists t n, ArucoTrackerNode_new disk = (t, Ok n)
              /\ _ground_distance n = one_f
              /\ _dictionary n = getPredefinedDictionary DICT_4X4_250.
Proof.
  unfold ArucoTrackerNode_new.
  destruct (disk "usb_cam_calib.yml") as [fs|]; cbn [bind log emit ret app];
    match goal with |- context [if ?c then _ else _] => destruct c end;
    cbn [bind log emit ret app]; eexists; eexists; repeat split.
Qed.

(** C8. The node is constructed with altitude [1.f], a positive finite
    number (not zero), whatever the calibration file; after any readings
    the stored altitude, read by a field access, is the [current_distance]
    of the last of them, and [1.f] when there was none; the same holds after
    any delivered messages, frames included, once [spin] has handled them. *)
Theorem altitude_is_last_reading `{Externals} :
  (forall disk, exists t n, ArucoTrackerNode_new disk = (t, Ok n)
                            /\ _ground_distance n = one_f)
  /\ finite_positive one_f = true
  /\ F32.ltb zero_f one_f = true
  /\ (forall n rs,
        _ground_distance (fold_left distance_sensor_callback rs n)
          = last (map current_distance rs) (_ground_distance n))
  /\ (forall n inbox t n',
        spin n inbox = (t, Ok n') ->
        _ground_distance n'
          = last (map current_distance (readings inbox)) (_ground_distance n)).
Proof.
  split; [|split; [|split; [|split]]].
  - intros disk. destruct (ArucoTrackerNode_new_total disk) as (t & n & Hn & Hg & _).
    now exists t, n.
  - reflexivity.
  - reflexivity.
  - intros n rs. apply ground_distance_fold.
  - intros n inbox t n' Hs.
    rewrite (spin_node inbox n t n' Hs). apply ground_distance_fold.
Qed.

(** Two readings around a frame: the stored altitude is the second one. *)
Lemma altitude_is_last_reading_witness :
  let E := Bench.libs ([Bench.markerA], [7]) Bench.pnp_ok Bench.axis_ok in
  let n := Bench.node one_f Bench.K500 Bench.D5 in
  let inbox := [distance_sensor (Bench.reading (F32.of_Z 3));
                image_raw (Bench.frame 1);
                distance_sensor (Bench.reading (F32.of_Z 2))] in
  exists t n', @spin E n inbox = (t, Ok n') /\ _ground_distance n' = F32.of_Z 2.
Proof.
  intros E n inbox.
  destruct (@spin E n inbox) as [t r] eqn:Hs.
  vm_compute in Hs.
  destruct r as [n'| |]; try discriminate.
  exists t, n'. split; [reflexivity|].
  destruct (@altitude_is_last_reading E) as (_ & _ & _ & _ & Hlast).
  assert (Hs' : @spin E n inbox = (t, Ok n')) by (vm_compute; exact Hs).
  rewrite (Hlast n inbox t n' Hs'). reflexivity.
Defined.

(** ** The guard and the object points (C5, C6, C10) *)

(** The guarded block, by what the solver and the axis drawing do. *)
Lemma solve_and_draw_unfold `{Externals} n corners_i s image :
  solve_and_draw n corners_i s image =
    let K := _camera_matrix n in
    let D := _dist_coeffs n in
    let pre := [Log INFO "marker_size %f" [arg_float s];
                Log INFO "solvePnP" [];
                SolvePnP (objectPoints s) corners_i K D] in
    match solvePnP (objectPoints s) corners_i K D with
    | Returns (_, rvec, tvec) =>
        (pre ++ [Log INFO "drawing axis" []; DrawAxis K D rvec tvec s],
         match drawAxis image K D rvec tvec s with
         | Returns image' => Ok image'
         | Raises e => Throw e
         end)
    | Raises e => (pre, Throw e)
    end.
Proof.
  unfold solve_and_draw. cbn [log emit bind call app].
  destruct (solvePnP _ _ _ _) as [[[ok rvec] tvec]|e]; cbn [bind app]; [|reflexivity].
  destruct (drawAxis _ _ _ _ _ _); reflexivity.
Qed.

Lemma guard_false_iff s : guard s = false <-> isnan s || isinf s = true.
Proof. unfold guard; destruct s; simpl; intuition discriminate. Qed.

Lemma guard_is_finite s : guard s = is_finite s.
Proof. destruct s; reflexivity. Qed.

(** With a zero focal length the estimate is NaN or infinite, whatever the
    pixel width and the altitude. *)
Lemma zero_focal_length_invalid pw b a : guard (marker_size pw (S754_zero b) a) = false.
Proof.
  unfold marker_size.
  generalize (F64.of_float pw) (F64.of_float a); intros x y.
  destruct x as [?|?| |? ? ?]; destruct y as [?|?| |? ? ?]; reflexivity.
Qed.

(** Halving keeps a size that is zero or negative zero or negative. *)
Lemma half_of_nonpositive s :
  is_finite s = true -> F32.leb s zero_f = true ->
  let h := F32.div s two_f in
  F32.leb h zero_f = true /\ F32.leb h (F32.neg h) = true.
Proof.
  intros Hf Hle h; subst h.
  change two_f with (S754_finite false 8388608 (-22)).
  destruct s as [b|b| |b m e]; try discriminate.
  - simpl. now split.
  - destruct b; [|discriminate].
    pose proof (SFdiv_finite_sign F32.prec F32.emax true m e false 8388608 (-22)) as Hs.
    unfold F32.div.
    destruct (SFdiv F32.prec F32.emax (S754_finite true m e) (S754_finite false 8388608 (-22)))
      as [b|b| |b mh eh]; simpl in Hs; try discriminate;
      apply eqb_prop in Hs; subst b.
    + now split.
    + now split.
    + split; [reflexivity|].
      unfold F32.leb, SFleb, F32.neg, SFopp, SFcompare. reflexivity.
Qed.

(** ** Traces of the loop and of the callback *)

Lemma bind_pure {A B : Type} (a : A) (k : A -> M B) : bind ([], Ok a) k = k a.
Proof. unfold bind. destruct (k a). reflexivity. Qed.

Lemma published_app t1 t2 : published (t1 ++ t2) = published t1 ++ published t2.
Proof. unfold published. apply flat_map_app. Qed.

(** The loop body, by cases on the reads it makes. *)
Lemma marker_body_cases `{Externals} n corners i image :
  marker_body n corners i image =
    match nth_error corners i with
    | None => ([], Undefined)
    | Some corners_i =>
        match nth_error corners_i 0, nth_error corners_i 1 with
        | Some c0, Some c1 =>
            match Mat_at (_camera_matrix n) 0 0 with
            | None => ([], Undefined)
            | Some fx =>
                let s := marker_size (pixel_width c0 c1) fx (_ground_distance n) in
                if guard s then solve_and_draw n corners_i s image else ([], Ok image)
            end
        | _, _ => ([], Undefined)
        end
    end.
Proof.
  destruct (nth_error corners i) as [corners_i|] eqn:Hi.
  - destruct (nth_error corners_i 0) as [c0|] eqn:H0;
      [destruct (nth_error corners_i 1) as [c1|] eqn:H1;
       [destruct (Mat_at (_camera_matrix n) 0 0) as [fx|] eqn:Hfx|]|].
    + now apply marker_body_unfold.
    + unfold marker_body, vector_at, at_double.
      rewrite Hi, bind_pure, H0, bind_pure, H1, bind_pure, Hfx. reflexivity.
    + unfold marker_body, vector_at. rewrite Hi, bind_pure, H0, bind_pure, H1. reflexivity.
    + unfold marker_body, vector_at. rewrite Hi, bind_pure, H0. reflexivity.
  - unfold marker_body, vector_at. rewrite Hi. reflexivity.
Qed.

Lemma solve_and_draw_published `{Externals} n corners_i s image :
  published (fst (solve_and_draw n corners_i s image)) = [].
Proof.
  rewrite solve_and_draw_unfold. cbv zeta.
  destruct (solvePnP _ _ _ _) as [[[ok rvec] tvec]|e]; reflexivity.
Qed.

Lemma marker_body_published `{Externals} n corners i image :
  published (fst (marker_body n corners i image)) = [].
Proof.
  rewrite marker_body_cases.
  destruct (nth_error corners i) as [corners_i|]; [|reflexivity].
  destruct (nth_error corners_i 0); [|reflexivity].
  destruct (nth_error corners_i 1); [|reflexivity].
  destruct (Mat_at _ 0 0); [|reflexivity].
  cbv zeta. destruct (guard _); [apply solve_and_draw_published|reflexivity].
Qed.

Lemma marker_loop_published `{Externals} n corners todo :
  forall i image, published (fst (marker_loop n corners todo i image)) = [].
Proof.
  induction todo as [|todo IH]; intros i image; [reflexivity|].
  cbn [marker_loop].
  pose proof (marker_body_published n corners i image) as Hb.
  destruct (marker_body n corners i image) as [t [image'|e|]]; cbn [fst] in Hb;
    cbn [bind]; try exact Hb.
  pose proof (IH (S i) image') as Hl.
  destruct (marker_loop n corners todo (S i) image') as [t' r']; cbn [fst] in *.
  now rewrite published_app, Hb, Hl.
Qed.

(** A raise or an undefined read in an iteration ends the loop there: the
    markers after it are not handled. *)
Lemma marker_loop_stops `{Externals} n corners todo i image t :
  (forall e, marker_body n corners i image = (t, Throw e) ->
             marker_loop n corners (S todo) i image = (t, Throw e))
  /\ (marker_body n corners i image = (t, Undefined) ->
      marker_loop n corners (S todo) i image = (t, Undefined)).
Proof. split; [intros e Hb|intros Hb]; cbn [marker_loop]; now rewrite Hb. Qed.

(** The [try] block publishes last and at most once: its trace ends with the
    one published message exactly when it ends normally. *)
Lemma image_callback_try_publishes `{Externals} n msg :
  match image_callback_try n msg with
  | (t, Ok _) =>
      exists t' image',
        t = t' ++ [Publish {| header := header msg; encoding := BGR8;
                              pixels := toPixels image' |}]
        /\ published t' = []
  | (t, _) => published t = []
  end.
Proof.
  unfold image_callback_try, call.
  destruct (toCvCopy msg BGR8) as [image|e]; [|reflexivity].
  rewrite bind_pure.
  destruct (detectMarkers image (_dictionary n)) as [[corners ids]|e]; [|reflexivity].
  rewrite bind_pure.
  destruct (0 <? List.length ids)%nat.
  - cbn [log emit bind app].
    destruct (drawDetectedMarkers image corners ids) as [image1|e]; [|reflexivity].
    cbn [bind app].
    pose proof (marker_loop_published n corners (List.length ids) 0%nat image1) as Hl.
    destruct (marker_loop n corners (List.length ids) 0 image1) as [t [image2|e|]];
      cbn [fst] in Hl; cbn [bind app].
    + eexists (_ :: _ :: t), image2. split; [reflexivity|]. exact Hl.
    + exact Hl.
    + exact Hl.
  - cbn [ret bind emit app]. exists [], image. split; reflexivity.
Qed.

(** ** Pose-solve failures (C2) *)

(** C2 (as amended). There is no handler inside the marker loop. For a
    marker whose size [s] passed the guard:
    - when the solver returns, its success flag is not looked at: the axis
      is drawn from the returned vectors, and if that drawing returns the
      loop goes on with the next marker;
    - when the solver raises, the iteration and the loop end with that
      exception: no axis for this marker, no later marker handled.
    At frame level the only handler is for [cv_bridge::Exception]: such an
    exception from the [try] block is logged and the callback returns; any
    other exception leaves [image_callback] and ends [spin]. In both cases
    nothing was published for the frame. *)
Theorem pose_failure_handling `{Externals}
    (n : ArucoTrackerNode) (corners : list (list Point2f)) (i todo : nat) (image : Image)
    (corners_i : list Point2f) (c0 c1 : Point2f) (fx : double) (msg : ImageMsg) :
  nth_error corners i = Some corners_i ->
  nth_error corners_i 0 = Some c0 ->
  nth_error corners_i 1 = Some c1 ->
  Mat_at (_camera_matrix n) 0 0 = Some fx ->
  let s := marker_size (pixel_width c0 c1) fx (_ground_distance n) in
  guard s = true ->
  let K := _camera_matrix n in
  let D := _dist_coeffs n in
  let pre := [Log INFO "marker_size %f" [arg_float s];
              Log INFO "solvePnP" [];
              SolvePnP (objectPoints s) corners_i K D] in
  (forall ok rvec tvec,
     solvePnP (objectPoints s) corners_i K D = Returns (ok, rvec, tvec) ->
     let drawn := pre ++ [Log INFO "drawing axis" []; DrawAxis K D rvec tvec s] in
     fst (marker_body n corners i image) = drawn
     /\ forall image',
          drawAxis image K D rvec tvec s = Returns image' ->
          marker_loop n corners (S todo) i image
            = (drawn ++ fst (marker_loop n corners todo (S i) image'),
               snd (marker_loop n corners todo (S i) image')))
  /\ (forall e,
        solvePnP (objectPoints s) corners_i K D = Raises e ->
        marker_body n corners i image = (pre, Throw e)
        /\ marker_loop n corners (S todo) i image = (pre, Throw e))
  /\ (forall t what,
        image_callback_try n msg = (t, Throw (cv_Exception what)) ->
        image_callback n msg = (t, Throw (cv_Exception what))
        /\ published t = []
        /\ forall inbox,
             spin n (image_raw msg :: inbox) = (t, Throw (cv_Exception what)))
  /\ (forall t what,
        image_callback_try n msg = (t, Throw (cv_bridge_Exception what)) ->
        image_callback n msg
          = (t ++ [Log ERROR "cv_bridge exception: %s" [arg_string what]], Ok tt)
        /\ published t = []).
Proof.
  intros Hi H0 H1 Hfx s Hg K D pre.
  assert (Hbody : marker_body n corners i image = solve_and_draw n corners_i s image).
  { rewrite (marker_body_unfold n corners i image corners_i c0 c1 fx) by assumption.
    cbv zeta. fold s. now rewrite Hg. }
  rewrite solve_and_draw_unfold in Hbody. cbv zeta in Hbody. fold K D pre in Hbody.
  split; [|split; [|split]].
  - intros ok rvec tvec Hs drawn. rewrite Hs in Hbody.
    split; [now rewrite Hbody|].
    intros image' Hd. rewrite Hd in Hbody.
    cbn [marker_loop]. rewrite Hbody. cbn [bind]. fold drawn.
    now destruct (marker_loop n corners todo (S i) image').
  - intros e Hs. rewrite Hs in Hbody. split; [exact Hbody|].
    cbn [marker_loop]. now rewrite Hbody.
  - intros t what Ht.
    pose proof (image_callback_try_publishes n msg) as Hp. rewrite Ht in Hp.
    assert (Hc : image_callback n msg = (t, Throw (cv_Exception what))).
    { unfold image_callback, try_catch_cv_bridge. now rewrite Ht. }
    split; [exact Hc|split; [exact Hp|]].
    intros inbox. cbn [spin]. now rewrite Hc.
  - intros t what Ht.
    pose proof (image_callback_try_publishes n msg) as Hp. rewrite Ht in Hp.
    split; [|exact Hp].
    unfold image_callback, try_catch_cv_bridge. now rewrite Ht.
Qed.

(** A solver that returns [false] for markerA: the axis is drawn all the
    same and markerB is handled next; the frame is published. *)
Lemma pose_failure_handling_witness :
  let E := Bench.libs ([Bench.markerA; Bench.markerB], [7; 9])
                      Bench.pnp_false Bench.axis_ok in
  let n := Bench.node (F32.of_Z 2) Bench.K500 Bench.D5 in
  let image := pixels (Bench.frame 1) in
  axes (fst (@marker_body E n [Bench.markerA; Bench.markerB] 0 image)) = [f_0_2]
  /\ map snd (solved (fst (@marker_loop E n [Bench.markerA; Bench.markerB] 2 0 image)))
     = [Bench.markerA; Bench.markerB]
  /\ List.length (published (fst (@image_callback E n (Bench.frame 1)))) = 1%nat.
Proof.
  intros E n image.
  destruct (@pose_failure_handling E n [Bench.markerA; Bench.markerB] 0%nat 1%nat image
              Bench.markerA (Bench.pt 100 100) (Bench.pt 150 100) (F64.of_Z 500)
              (Bench.frame 1) eq_refl eq_refl eq_refl eq_refl eq_refl)
    as (Hret & _ & _ & _).
  destruct (Hret false Bench.zero3 Bench.zero3 eq_refl) as [Hbody Hloop].
  split; [|split].
  - rewrite Hbody. reflexivity.
  - rewrite (Hloop (Bench.mark Byte.x02 image) eq_refl). reflexivity.
  - reflexivity.
Defined.

(** C2 fails as stated: the solver raises on markerA, the first of two
    markers. The exception leaves [image_callback]: markerB is never given
    to the solver (alone in a frame it is solved), no axis is drawn, no
    frame is published, and [spin] ends before the next frame is handled. *)
Lemma solver_exception_aborts_frame_and_spin :
  let E := Bench.libs ([Bench.markerA; Bench.markerB], [7; 9])
                      Bench.pnp_raises_on_A Bench.axis_ok in
  let EB := Bench.libs ([Bench.markerB], [9]) Bench.pnp_raises_on_A Bench.axis_ok in
  let n := Bench.node (F32.of_Z 2) Bench.K500 Bench.D5 in
  (snd (@image_callback EB n (Bench.frame 1)) = Ok tt
   /\ map snd (solved (fst (@image_callback EB n (Bench.frame 1)))) = [Bench.markerB])
  /\ snd (@image_callback E n (Bench.frame 1)) = Throw (cv_Exception "solvePnP")
  /\ map snd (solved (fst (@image_callback E n (Bench.frame 1)))) = [Bench.markerA]
  /\ axes (fst (@image_callback E n (Bench.frame 1))) = []
  /\ published (fst (@image_callback E n (Bench.frame 1))) = []
  /\ snd (@spin E n [image_raw (Bench.frame 1); image_raw (Bench.frame 2)])
     = Throw (cv_Exception "solvePnP")
  /\ published (fst (@spin E n [image_raw (Bench.frame 1); image_raw (Bench.frame 2)])) = [].
Proof. vm_compute. repeat split. Qed.

(** ** One published frame per decoded frame (C7) *)


(** ** Calibration (C4) *)

(** C4 (as amended). When calibration loading fails the constructor logs
    the failure (one error line for an unreadable file, one for an empty
    matrix; both for a missing file) and still returns a node, which stores
    the matrices as loaded. Nothing records the failure and [image_callback]
    does not ask for it: every marker goes through the same loop body, and
    whenever entry (0,0) of the stored camera matrix can be read and the
    size passes the guard, the solver is called with the stored matrices,
    empty distortion coefficients included. *)
Theorem calibration_failure_is_only_logged `{Externals} (disk : FileSystem) :
  exists t n,
    ArucoTrackerNode_new disk = (t, Ok n)
    /\ errors t
       = (if opened disk then [] else ["Failed to open camera calibration file"])
         ++ (if empty (fst (loaded disk)) || empty (snd (loaded disk))
             then ["Failed to load camera parameters correctly."] else [])
    /\ (calibration_failed disk = true -> errors t <> [])
    /\ n = {| _dictionary := getPredefinedDictionary DICT_4X4_250;
              _ground_distance := one_f;
              _camera_matrix := convertTo_CV_64F (fst (loaded disk));
              _dist_coeffs := snd (loaded disk) |}
    /\ forall corners i image corners_i c0 c1 fx,
         nth_error corners i = Some corners_i ->
         nth_error corners_i 0 = Some c0 ->
         nth_error corners_i 1 = Some c1 ->
         Mat_at (_camera_matrix n) 0 0 = Some fx ->
         let s := marker_size (pixel_width c0 c1) fx (_ground_distance n) in
         guard s = true ->
         exists rest r,
           marker_body n corners i image
             = ([Log INFO "marker_size %f" [arg_float s];
                 Log INFO "solvePnP" [];
                 SolvePnP (objectPoints s) corners_i
                          (convertTo_CV_64F (fst (loaded disk))) (snd (loaded disk))]
                ++ rest, r).
Proof.
  assert (Hbody : forall n corners i image corners_i c0 c1 fx,
             nth_error corners i = Some corners_i ->
             nth_error corners_i 0 = Some c0 ->
             nth_error corners_i 1 = Some c1 ->
             Mat_at (_camera_matrix n) 0 0 = Some fx ->
             let s := marker_size (pixel_width c0 c1) fx (_ground_distance n) in
             guard s = true ->
             exists rest r,
               marker_body n corners i image
                 = ([Log INFO "marker_size %f" [arg_float s];
                     Log INFO "solvePnP" [];
                     SolvePnP (objectPoints s) corners_i
                              (_camera_matrix n) (_dist_coeffs n)] ++ rest, r)).
  { intros n corners i image corners_i c0 c1 fx Hi H0 H1 Hfx s Hg.
    rewrite (marker_body_unfold n corners i image corners_i c0 c1 fx) by assumption.
    cbv zeta. fold s. rewrite Hg, solve_and_draw_unfold. cbv zeta.
    destruct (solvePnP _ _ _ _) as [[[ok rvec] tvec]|e];
      [eexists; eexists; reflexivity | exists [], (Throw e); reflexivity]. }
  unfold calibration_failed, opened, loaded, ArucoTrackerNode_new.
  destruct (disk "usb_cam_calib.yml") as [fs|]; cbn [bind log emit ret app fst snd negb orb].
  - destruct (empty (fs "camera_matrix") || empty (fs "distortion_coefficients")) eqn:He;
      cbn [bind log emit ret app];
      (eexists; eexists; split; [reflexivity|]; split; [reflexivity|];
       split; [intros Hf; cbn; discriminate|]; split; [reflexivity|]);
      apply Hbody.
  - eexists; eexists; split; [reflexivity|]; split; [reflexivity|].
    split; [intros _; cbn; discriminate|]. split; [reflexivity|].
    apply Hbody.
Qed.

(** A calibration file with the camera matrix and no distortion
    coefficients: the node starts after one error line, and markerA's pose
    is solved against the empty coefficients. *)
Lemma calibration_failure_is_only_logged_witness :
  let E := Bench.libs ([Bench.markerA], [7]) Bench.pnp_ok Bench.axis_ok in
  let disk := Bench.disk_with (Bench.storage Bench.K500 Mat_default) in
  calibration_failed disk = true
  /\ exists t n,
       ArucoTrackerNode_new disk = (t, Ok n)
       /\ errors t = ["Failed to load camera parameters correctly."]
       /\ exists rest r,
            @marker_body E n [Bench.markerA] 0 (pixels (Bench.frame 1))
              = ([Log INFO "marker_size %f" [arg_float f_0_1];
                  Log INFO "solvePnP" [];
                  SolvePnP (objectPoints f_0_1) Bench.markerA Bench.K500 Mat_default]
                 ++ rest, r).
Proof.
  intros E disk. split; [reflexivity|].
  destruct (@calibration_failure_is_only_logged E disk) as (t & n & Hnew & Herr & _ & Hn & Hbody).
  exists t, n. split; [exact Hnew|]. split; [exact Herr|].
  subst n.
  exact (Hbody [Bench.markerA] 0%nat (pixels (Bench.frame 1)) Bench.markerA
               (Bench.pt 100 100) (Bench.pt 150 100) (F64.of_Z 500)
               eq_refl eq_refl eq_refl eq_refl eq_refl).
Defined.

(** C4 fails as stated. (1) The calibration file lacks the distortion
    coefficients: loading fails and is logged, yet on the next frame the
    marker's size is estimated (0.1 at the placeholder altitude), the solver
    is run and the axis is drawn. (2) The file is missing: the marker's
    scale estimate is still attempted, and reads the empty camera matrix. *)
Lemma pose_estimation_runs_without_calibration :
  let E := Bench.libs ([Bench.markerA], [7]) Bench.pnp_ok Bench.axis_ok in
  let incomplete := Bench.disk_with (Bench.storage Bench.K500 Mat_default) in
  let run := @main E incomplete [image_raw (Bench.frame 1)] in
  (calibration_failed incomplete = true
   /\ errors (fst run) = ["Failed to load camera parameters correctly."]
   /\ solved (fst run) = [(objectPoints f_0_1, Bench.markerA)]
   /\ axes (fst run) = [f_0_1]
   /\ snd run = Ok tt)
  /\
  (calibration_failed Bench.disk_empty = true
   /\ solved (fst (@main E Bench.disk_empty [image_raw (Bench.frame 1)])) = []
   /\ snd (@main E Bench.disk_empty [image_raw (Bench.frame 1)]) = Undefined).
Proof. vm_compute. repeat split. Qed.

(** ** Further properties of the marker loop *)

Lemma solved_app t1 t2 : solved (t1 ++ t2) = solved t1 ++ solved t2.
Proof. unfold solved. apply flat_map_app. Qed.

Lemma axes_app t1 t2 : axes (t1 ++ t2) = axes t1 ++ axes t2.
Proof. unfold axes. apply flat_map_app. Qed.

Lemma skipn_nth_error {A : Type} (l : list A) :
  forall i, skipn i l = match nth_error l i with
                        | Some a => a :: skipn (S i) l
                        | None => []
                        end.
Proof.
  induction l as [|a l IH]; intros [|i]; try reflexivity.
  cbn [skipn nth_error]. rewrite (IH i). now destruct (nth_error l i).
Qed.

(** An iteration that ends normally read its marker, and called the solver
    and drew the axis exactly when the size passed the guard. *)
Lemma marker_body_ok_inv `{Externals} n corners i image t image' :
  marker_body n corners i image = (t, Ok image') ->
  exists corners_i,
    nth_error corners i = Some corners_i
    /\ size_of n corners_i <> None
    /\ solved t = expected_solves n [corners_i]
    /\ axes t = expected_axes n [corners_i].
Proof.
  rewrite marker_body_cases.
  destruct (nth_error corners i) as [corners_i|]; [|discriminate].
  destruct corners_i as [|c0 [|c1 more]]; cbn [nth_error]; try discriminate.
  destruct (Mat_at (_camera_matrix n) 0 0) as [fx|] eqn:Hfx; [|discriminate].
  cbv zeta. intros Hbody.
  exists (c0 :: c1 :: more). split; [reflexivity|].
  unfold expected_solves, expected_axes, size_of. rewrite Hfx.
  split; [discriminate|]. cbn [flat_map app].
  destruct (guard _) eqn:Hg.
  - rewrite solve_and_draw_unfold in Hbody. cbv zeta in Hbody.
    destruct (solvePnP _ _ _ _) as [[[ok rvec] tvec]|e]; [|discriminate].
    destruct (drawAxis _ _ _ _ _ _) as [image1|e]; [|discriminate].
    inversion Hbody; subst. split; reflexivity.
  - inversion Hbody; subst. split; reflexivity.
Qed.

Lemma marker_loop_ok_inv `{Externals} n corners todo :
  forall i image t image',
    marker_loop n corners todo i image = (t, Ok image') ->
    solved t = expected_solves n (firstn todo (skipn i corners))
    /\ axes t = expected_axes n (firstn todo (skipn i corners))
    /\ (forall k, (i <= k < i + todo)%nat ->
                  exists c, nth_error corners k = Some c /\ size_of n c <> None).
Proof.
  induction todo as [|todo IH]; intros i image t image' Hl.
  - cbn in Hl. inversion Hl; subst. repeat split. intros k Hk. lia.
  - cbn [marker_loop] in Hl.
    destruct (marker_body n corners i image) as [t1 [image1|e|]] eqn:Hb;
      cbn [bind] in Hl; try discriminate.
    destruct (marker_loop n corners todo (S i) image1) as [t2 r2] eqn:Hr.
    inversion Hl; subst.
    destruct (marker_body_ok_inv _ _ _ _ _ _ Hb) as (c & Hc & Hsz & Hs1 & Ha1).
    destruct (IH _ _ _ _ Hr) as (Hs2 & Ha2 & Hk2).
    rewrite (skipn_nth_error corners i), Hc. cbn [firstn].
    rewrite solved_app, axes_app, Hs1, Ha1, Hs2, Ha2.
    unfold expected_solves, expected_axes. cbn [flat_map]. rewrite !app_nil_r.
    repeat split.
    intros k Hk. destruct (Nat.eq_dec k i) as [->|Hne].
    + now exists c.
    + apply Hk2. lia.
Qed.

(** A published frame comes from a [try] block that ran to its end. *)
Lemma image_callback_published_inv `{Externals} n msg image corners ids :
  toCvCopy msg BGR8 = Returns image ->
  detectMarkers image (_dictionary n) = Returns (corners, ids) ->
  published (fst (image_callback n msg)) <> [] ->
  snd (image_callback n msg) = Ok tt
  /\ ((ids = [] /\ fst (image_callback n msg)
                   = [Publish {| header := header msg; encoding := BGR8;
                                 pixels := toPixels image |}])
      \/ (exists image1 t2 image2,
            ids <> []
            /\ drawDetectedMarkers image corners ids = Returns image1
            /\ marker_loop n corners (List.length ids) 0 image1 = (t2, Ok image2)
            /\ fst (image_callback n msg)
               = Log INFO "drawing detected markers" []
                 :: DrawDetectedMarkers corners ids
                 :: t2 ++ [Publish {| header := header msg; encoding := BGR8;
                                      pixels := toPixels image2 |}])).
Proof.
  intros Hdec Hdet Hpub.
  pose proof (image_callback_try_publishes n msg) as Hp.
  unfold image_callback, try_catch_cv_bridge in *.
  destruct (image_callback_try n msg) as [t r] eqn:Ht.
  destruct r as [[]|[what|what]|].
  2:{ cbn [log emit fst] in Hpub. rewrite published_app, Hp in Hpub. now elim Hpub. }
  2,3: (cbn [fst] in Hpub; now rewrite Hp in Hpub).
  cbn [fst snd]. clear Hp Hpub. split; [reflexivity|].
  unfold image_callback_try, call in Ht.
  rewrite Hdec, bind_pure, Hdet, bind_pure in Ht.
  destruct ids as [|id ids'].
  - cbn [List.length Nat.ltb Nat.leb ret bind emit app] in Ht.
    inversion Ht; subst. left. now split.
  - change (0 <? List.length (id :: ids'))%nat with true in Ht. cbv iota in Ht.
    cbn [log emit bind app] in Ht.
    destruct (drawDetectedMarkers image corners (id :: ids')) as [image1|e] eqn:Hdraw;
      [|discriminate].
    cbn [bind app] in Ht.
    destruct (marker_loop n corners (List.length (id :: ids')) 0 image1)
      as [t2 [image2|e|]] eqn:Hl; cbn [bind app emit] in Ht; try discriminate.
    inversion Ht; subst. right.
    exists image1, t2, image2.
    split; [discriminate|]. split; [reflexivity|]. split; [exact Hl|reflexivity].
Qed.

(** X1. Whenever [image_callback] publishes a frame, the solver was called
    on exactly the markers among the first [ids.size()] corner sets whose
    estimated size is finite, in the detector's order and with the object
    points built from that size, and one axis of that size was drawn for
    each of them. *)
Theorem published_frame_solved_finite_markers `{Externals}
    (n : ArucoTrackerNode) (msg : ImageMsg) (image : Image)
    (corners : list (list Point2f)) (ids : list Z) :
  toCvCopy msg BGR8 = Returns image ->
  detectMarkers image (_dictionary n) = Returns (corners, ids) ->
  published (fst (image_callback n msg)) <> [] ->
  let handled := firstn (List.length ids) corners in
  solved (fst (image_callback n msg)) = expected_solves n handled
  /\ axes (fst (image_callback n msg)) = expected_axes n handled
  /\ snd (image_callback n msg) = Ok tt.
Proof.
  intros Hdec Hdet Hpub handled.
  destruct (image_callback_published_inv n msg image corners ids Hdec Hdet Hpub)
    as [Hok [[-> ->]|(image1 & t2 & image2 & _ & _ & Hl & ->)]].
  - now repeat split.
  - destruct (marker_loop_ok_inv _ _ _ _ _ _ _ Hl) as (Hs & Ha & _).
    cbn [skipn] in Hs, Ha. fold handled in Hs, Ha.
    split; [|split; [|exact Hok]].
    + change (solved (Log INFO "drawing detected markers" []
                      :: DrawDetectedMarkers corners ids :: t2 ++ [Publish _]))
        with (solved (t2 ++ [Publish {| header := header msg; encoding := BGR8;
                                        pixels := toPixels image2 |}])).
      rewrite solved_app, Hs. cbn. now rewrite app_nil_r.
    + change (axes (Log INFO "drawing detected markers" []
                    :: DrawDetectedMarkers corners ids :: t2 ++ [Publish _]))
        with (axes (t2 ++ [Publish {| header := header msg; encoding := BGR8;
                                      pixels := toPixels image2 |}])).
      rewrite axes_app, Ha. cbn. now rewrite app_nil_r.
Qed.

(** A far marker whose size overflows is skipped, markerA after it is
    solved and its axis drawn with the size 102.4. *)
Lemma published_frame_solved_finite_markers_witness :
  let E := Bench.libs ([Bench.markerFar; Bench.markerA], [3; 7])
                      Bench.pnp_ok Bench.axis_ok in
  let n := Bench.node (F32.of_Z 1024) Bench.K500 Bench.D5 in
  let s := marker_size (pixel_width (Bench.pt 100 100) (Bench.pt 150 100))
                       (F64.of_Z 500) (F32.of_Z 1024) in
  size_of n Bench.markerFar = Some (S754_infinity false)
  /\ solved (fst (@image_callback E n (Bench.frame 1))) = [(objectPoints s, Bench.markerA)]
  /\ axes (fst (@image_callback E n (Bench.frame 1))) = [s].
Proof.
  intros E n s. split; [reflexivity|].
  destruct (@published_frame_solved_finite_markers E n (Bench.frame 1)
              (pixels (Bench.frame 1)) [Bench.markerFar; Bench.markerA] [3; 7]
              eq_refl eq_refl) as (Hs & Ha & _).
  - vm_compute. discriminate.
  - split; [rewrite Hs|rewrite Ha]; reflexivity.
Defined.

(** ** Exceptions, frame by frame *)

Lemma image_callback_result `{Externals} n msg :
  forall what, snd (image_callback n msg) <> Throw (cv_bridge_Exception what).
Proof.
  intros what. unfold image_callback, try_catch_cv_bridge.
  destruct (image_callback_try n msg) as [t [[]|[w|w]|]]; cbn; discriminate.
Qed.

Lemma ArucoTrackerNode_new_trace (disk : FileSystem) :
  exists t n, ArucoTrackerNode_new disk = (t, Ok n) /\ published t = []
              /\ solved t = [] /\ axes t = [].
Proof.
  unfold ArucoTrackerNode_new.
  destruct (disk "usb_cam_calib.yml") as [fs|]; cbn [bind log emit ret app];
    match goal with |- context [if ?c then _ else _] => destruct c end;
    cbn [bind log emit ret app]; eexists; eexists; repeat split.
Qed.

(** X2. A [cv_bridge::Exception] never leaves the node: no callback, no
    spin and no run of [main] ends with one, whatever the libraries do. *)
Theorem cv_bridge_exception_never_escapes `{Externals}
    (disk : FileSystem) (n : ArucoTrackerNode) (inbox : list incoming) (what : string) :
  snd (spin n inbox) <> Throw (cv_bridge_Exception what)
  /\ snd (main disk inbox) <> Throw (cv_bridge_Exception what).
Proof.
  assert (Hspin : forall inbox n, snd (spin n inbox) <> Throw (cv_bridge_Exception what)).
  { clear n inbox. induction inbox as [|m rest IH]; intros n.
    - cbn. discriminate.
    - destruct m as [msg|msg]; cbn [spin]; [|apply IH].
      pose proof (image_callback_result n msg what) as Hc.
      destruct (image_callback n msg) as [t [[]|e|]]; cbn [bind snd] in *.
      + specialize (IH n). destruct (spin n rest) as [t' r']. exact IH.
      + intros Heq. apply Hc. inversion Heq. reflexivity.
      + discriminate. }
  split; [apply Hspin|].
  unfold main.
  destruct (ArucoTrackerNode_new_trace disk) as (t & n0 & -> & _).
  cbn [bind]. specialize (Hspin inbox n0).
  destruct (spin n0 inbox) as [t1 [n1|e|]]; cbn [bind ret snd app] in *;
    try discriminate.
  intros Heq. apply Hspin. inversion Heq. reflexivity.
Qed.

(** X3. A frame that cannot be decoded is dropped and nothing else: the
    callback logs one error line carrying the exception's text, calls no
    detection, drawing or solver, publishes nothing and returns; [spin]
    then handles the later messages as it would have without that frame. *)
Theorem decode_failure_drops_frame `{Externals}
    (n : ArucoTrackerNode) (msg : ImageMsg) (what : string) :
  toCvCopy msg BGR8 = Raises (cv_bridge_Exception what) ->
  image_callback n msg
    = ([Log ERROR "cv_bridge exception: %s" [arg_string what]], Ok tt)
  /\ forall inbox,
       spin n (image_raw msg :: inbox)
         = (Log ERROR "cv_bridge exception: %s" [arg_string what] :: fst (spin n inbox),
            snd (spin n inbox)).
Proof.
  intros Hdec.
  assert (Hc : image_callback n msg
               = ([Log ERROR "cv_bridge exception: %s" [arg_string what]], Ok tt)).
  { unfold image_callback, image_callback_try, call. now rewrite Hdec. }
  split; [exact Hc|].
  intros inbox. cbn [spin]. rewrite Hc. cbn [bind].
  now destruct (spin n inbox).
Qed.

(** A frame with an empty encoding between two good frames: one error
    line, and the two good frames are published. *)
Lemma decode_failure_drops_frame_witness :
  let E := Bench.libs ([], []) Bench.pnp_ok Bench.axis_ok in
  let n := Bench.node one_f Bench.K500 Bench.D5 in
  let bad := {| header := header (Bench.frame 2); encoding := "";
                pixels := pixels (Bench.frame 2) |} in
  @image_callback E n bad
    = ([Log ERROR "cv_bridge exception: %s"
          [arg_string "Unrecognized image encoding []"]], Ok tt)
  /\ map header (published (fst (@spin E n [image_raw (Bench.frame 1); image_raw bad;
                                            image_raw (Bench.frame 3)])))
     = [header (Bench.frame 1); header (Bench.frame 3)].
Proof.
  intros E n bad.
  destruct (@decode_failure_drops_frame E n bad "Unrecognized image encoding []" eq_refl)
    as [Hc Hs].
  split; [exact Hc|].
  change (@spin E n [image_raw (Bench.frame 1); image_raw bad; image_raw (Bench.frame 3)])
    with (bind (@image_callback E n (Bench.frame 1))
               (fun _ => @spin E n (image_raw bad :: [image_raw (Bench.frame 3)]))).
  rewrite (Hs [image_raw (Bench.frame 3)]). reflexivity.
Defined.

(** ** What a trace can contain *)

Lemma pose_events_tidy_nil b : pose_events_tidy [] b.
Proof. repeat split; cbn; try constructor; destruct b; lia. Qed.

Lemma pose_events_tidy_app t1 t2 b :
  pose_events_tidy t1 true -> pose_events_tidy t2 b -> pose_events_tidy (t1 ++ t2) b.
Proof.
  intros (Ha1 & Hs1 & Hle1 & Hge1) (Ha2 & Hs2 & Hle2 & Hge2).
  unfold pose_events_tidy. rewrite axes_app, solved_app, !length_app.
  repeat split; try (apply Forall_app; now split); lia.
Qed.

Lemma pose_events_tidy_weaken t : pose_events_tidy t true -> pose_events_tidy t false.
Proof. intros (Ha & Hs & Hle & Hge). repeat split; trivial; lia. Qed.

Lemma marker_body_tidy `{Externals} n corners i image :
  pose_events_tidy (fst (marker_body n corners i image))
                   (finished (snd (marker_body n corners i image))).
Proof.
  rewrite marker_body_cases.
  destruct (nth_error corners i) as [corners_i|]; [|apply pose_events_tidy_nil].
  destruct (nth_error corners_i 0); [|apply pose_events_tidy_nil].
  destruct (nth_error corners_i 1); [|apply pose_events_tidy_nil].
  destruct (Mat_at _ 0 0); [|apply pose_events_tidy_nil].
  cbv zeta. destruct (guard _) eqn:Hg; [|apply pose_events_tidy_nil].
  rewrite guard_is_finite in Hg.
  rewrite solve_and_draw_unfold. cbv zeta.
  destruct (solvePnP _ _ _ _) as [[[ok rvec] tvec]|e].
  - destruct (drawAxis _ _ _ _ _ _); cbn;
      (repeat split; [repeat constructor; assumption
                     |repeat constructor; eexists; split; [eassumption|reflexivity]
                     |cbn; lia|cbn; lia]).
  - cbn. repeat split; [constructor
                       |repeat constructor; eexists; split; [eassumption|reflexivity]
                       |cbn; lia|cbn; lia].
Qed.

Lemma marker_loop_tidy `{Externals} n corners todo :
  forall i image,
    pose_events_tidy (fst (marker_loop n corners todo i image))
                     (finished (snd (marker_loop n corners todo i image))).
Proof.
  induction todo as [|todo IH]; intros i image; [apply pose_events_tidy_nil|].
  cbn [marker_loop].
  pose proof (marker_body_tidy n corners i image) as Hb.
  destruct (marker_body n corners i image) as [t [image1|e|]]; cbn [fst snd finished bind] in *;
    try exact Hb.
  specialize (IH (S i) image1).
  destruct (marker_loop n corners todo (S i) image1) as [t' r']; cbn [fst snd] in *.
  now apply pose_events_tidy_app.
Qed.

(** X4. Whatever the libraries return or raise and however the callback
    ends, in the trace of one [image_callback]: every axis drawn has a
    finite length; every solver call receives the object points of a finite
    size; there are never more axes than solver calls, and at most one
    solver call without its axis. *)
Theorem pose_events_are_finite_and_paired `{Externals}
    (n : ArucoTrackerNode) (msg : ImageMsg) :
  pose_events_tidy (fst (image_callback n msg)) false.
Proof.
  assert (Htry : pose_events_tidy (fst (image_callback_try n msg)) false).
  { unfold image_callback_try, call.
    destruct (toCvCopy msg BGR8) as [image|e]; [|apply pose_events_tidy_nil].
    rewrite bind_pure.
    destruct (detectMarkers image (_dictionary n)) as [[corners ids]|e];
      [|apply pose_events_tidy_nil].
    rewrite bind_pure.
    destruct (0 <? List.length ids)%nat.
    - cbn [log emit bind app].
      destruct (drawDetectedMarkers image corners ids) as [image1|e];
        [|apply pose_events_tidy_nil].
      cbn [bind app].
      pose proof (marker_loop_tidy n corners (List.length ids) 0%nat image1) as Hl.
      destruct (marker_loop n corners (List.length ids) 0 image1) as [t [image2|e|]];
        cbn [fst snd finished bind app] in *; try exact Hl.
      change (pose_events_tidy (t ++ [Publish (toImageMsg
                {| cv_header := header msg; cv_encoding := BGR8; cv_image := image2 |})])
                false).
      apply pose_events_tidy_app; [exact Hl|apply pose_events_tidy_nil].
    - cbn. apply pose_events_tidy_nil. }
  unfold image_callback, try_catch_cv_bridge.
  destruct (image_callback_try n msg) as [t [[]|[w|w]|]]; cbn [fst] in *; try exact Htry.
  cbn [log emit fst].
  destruct Htry as (Ha & Hs & Hle & Hge).
  unfold pose_events_tidy. rewrite axes_app, solved_app, !length_app. cbn.
  rewrite !app_nil_r, !Nat.add_0_r. repeat split; assumption.
Qed.

(** The node the constructor returns. *)
Lemma ArucoTrackerNode_new_camera_matrix (disk : FileSystem) :
  exists t n,
    ArucoTrackerNode_new disk = (t, Ok n)
    /\ _camera_matrix n = convertTo_CV_64F (fst (loaded disk)).
Proof.
  unfold loaded, ArucoTrackerNode_new.
  destruct (disk "usb_cam_calib.yml") as [fs|]; cbn [bind log emit ret app fst];
    match goal with |- context [if ?c then _ else _] => destruct c end;
    cbn [bind log emit ret app]; eexists; eexists; split; reflexivity.
Qed.

(** ** Publishing *)

Lemma image_callback_publishes_at_most_once `{Externals} n msg :
  (List.length (published (fst (image_callback n msg))) <= 1)%nat.
Proof.
  pose proof (image_callback_try_publishes n msg) as Hp.
  unfold image_callback, try_catch_cv_bridge.
  destruct (image_callback_try n msg) as [t [[]|[w|w]|]]; cbn [fst log emit].
  - destruct Hp as (t' & image' & -> & Hp). rewrite published_app, Hp. cbn. lia.
  - rewrite published_app, Hp. cbn. lia.
  - rewrite Hp. cbn. lia.
  - rewrite Hp. cbn. lia.
Qed.

Lemma spin_publishes_at_most_frames `{Externals} inbox :
  forall n, (List.length (published (fst (spin n inbox))) <= List.length (frames inbox))%nat.
Proof.
  induction inbox as [|m rest IH]; intros n; [cbn; lia|].
  destruct m as [msg|msg]; cbn [spin frames flat_map app List.length]; [|apply IH].
  pose proof (image_callback_publishes_at_most_once n msg) as Hc.
  destruct (image_callback n msg) as [t [[]|e|]]; cbn [bind fst] in *; try lia.
  specialize (IH n). destruct (spin n rest) as [t' r']; cbn [fst] in *.
  rewrite published_app, length_app. fold (frames rest). lia.
Qed.

(** X5. A run of [main] publishes at most one message per delivered frame,
    whatever the calibration, the readings in between and the behaviour of
    the libraries; the constructor and the altitude callback publish
    nothing. *)
Theorem at_most_one_publish_per_frame `{Externals}
    (disk : FileSystem) (inbox : list incoming) :
  (List.length (published (fst (main disk inbox))) <= List.length (frames inbox))%nat.
Proof.
  unfold main.
  destruct (ArucoTrackerNode_new_trace disk) as (t & n & -> & Hp & _).
  cbn [bind].
  pose proof (spin_publishes_at_most_frames inbox n) as Hs.
  destruct (spin n inbox) as [t1 [n1|e|]]; cbn [bind ret fst app] in *;
    rewrite ?app_nil_r, published_app, Hp; exact Hs.
Qed.

Lemma empty_Mat_at m i j : empty m = true -> Mat_at (convertTo_CV_64F m) i j = None.
Proof.
  intros He. unfold convertTo_CV_64F. rewrite He.
  unfold empty in He. unfold Mat_at.
  destruct (nth_error (mat_rows m) i) as [r|] eqn:Hr; [|reflexivity].
  apply nth_error_In in Hr. apply in_split in Hr as (l1 & l2 & Hm).
  rewrite Hm, concat_app in He. cbn [List.concat] in He.
  destruct r as [|x r]; [now destruct j|].
  destruct (List.concat l1); discriminate.
Qed.

(** X6. A node constructed without a usable camera matrix (file missing,
    key absent or matrix empty) never publishes a frame in which a marker
    was detected: such a frame ends at the marker loop. *)
Theorem no_camera_matrix_no_marker_frame `{Externals}
    (disk : FileSystem) (t0 : list event) (n : ArucoTrackerNode)
    (msg : ImageMsg) (image : Image) (corners : list (list Point2f)) (ids : list Z) :
  ArucoTrackerNode_new disk = (t0, Ok n) ->
  empty (fst (loaded disk)) = true ->
  toCvCopy msg BGR8 = Returns image ->
  detectMarkers image (_dictionary n) = Returns (corners, ids) ->
  ids <> [] ->
  published (fst (image_callback n msg)) = [].
Proof.
  intros Hnew Hempty Hdec Hdet Hids.
  assert (Hat : Mat_at (_camera_matrix n) 0 0 = None).
  { destruct (ArucoTrackerNode_new_camera_matrix disk) as (t & n' & Hn & Hcm).
    rewrite Hnew in Hn. inversion Hn; subst. rewrite Hcm.
    now apply empty_Mat_at. }
  destruct (published (fst (image_callback n msg))) as [|p ps] eqn:Hp; [reflexivity|].
  assert (Hne : published (fst (image_callback n msg)) <> []) by (rewrite Hp; discriminate).
  destruct (image_callback_published_inv n msg image corners ids Hdec Hdet Hne)
    as [_ [[Hnil _]|(image1 & t2 & image2 & _ & _ & Hl & _)]]; [contradiction|].
  destruct (marker_loop_ok_inv _ _ _ _ _ _ _ Hl) as (_ & _ & Hk).
  destruct ids as [|id ids']; [contradiction|].
  destruct (Hk 0%nat ltac:(cbn; lia)) as (c & _ & Hsz).
  unfold size_of in Hsz. rewrite Hat in Hsz.
  destruct c as [|c0 [|c1 more]]; now elim Hsz.
Qed.

(** The calibration file is missing and markerA is in the frame: nothing
    is published. *)
Lemma no_camera_matrix_no_marker_frame_witness :
  let E := Bench.libs ([Bench.markerA], [7]) Bench.pnp_ok Bench.axis_ok in
  exists t0 n,
    ArucoTrackerNode_new Bench.disk_empty = (t0, Ok n)
    /\ published (fst (@image_callback E n (Bench.frame 1))) = [].
Proof.
  intros E.
  destruct (ArucoTrackerNode_new Bench.disk_empty) as [t0 r] eqn:Hnew.
  assert (Hr : exists n, r = Ok n).
  { vm_compute in Hnew. inversion Hnew. eexists; reflexivity. }
  destruct Hr as [n ->].
  exists t0, n. split; [reflexivity|].
  apply (@no_camera_matrix_no_marker_frame E Bench.disk_empty t0 n (Bench.frame 1)
           (pixels (Bench.frame 1)) [Bench.markerA] [7] Hnew eq_refl eq_refl eq_refl).
  discriminate.
Defined.

(** ** Signs and degenerate edges in the scale estimate *)

Lemma square_nonneg x : nan_or_nonneg (F64.mul x x) = true.
Proof.
  destruct x as [[|]|[|]| |s m e]; try reflexivity.
  unfold nan_or_nonneg.
  pose proof (SFmul_finite_sign F64.prec F64.emax s m e s m e) as Hs.
  rewrite xorb_nilpotent in Hs. unfold F64.mul. rewrite Hs. apply orb_true_r.
Qed.

Lemma add_nonneg x y :
  nan_or_nonneg x = true -> nan_or_nonneg y = true -> nan_or_nonneg (F64.add x y) = true.
Proof.
  unfold nan_or_nonneg.
  destruct x as [[|]|[|]| |[|] mx ex]; destruct y as [[|]|[|]| |[|] my ey];
    cbn; try discriminate; try reflexivity.
  intros _ _. rewrite binary_round_sign. apply orb_true_r.
Qed.

Lemma SFsqrt_core_binary_nonneg prec emax m e :
  0 <= fst (fst (SFsqrt_core_binary prec emax (Zpos m) e)).
Proof.
  unfold SFsqrt_core_binary.
  set (s := e - 2 * _).
  set (m' := match s with Zpos _ => Z.shiftl (Zpos m) s | Z0 => Zpos m | Zneg _ => 0 end).
  assert (Hm : 0 <= m').
  { unfold m'; destruct s; try lia. apply Z.shiftl_nonneg; lia. }
  pose proof (Z.sqrtrem_spec m' Hm) as Hq.
  destruct (Z.sqrtrem m') as [q r]. cbn. lia.
Qed.

Lemma sqrt_nonneg x : nan_or_nonneg x = true -> nan_or_nonneg (F64.sqrt x) = true.
Proof.
  unfold nan_or_nonneg.
  destruct x as [[|]|[|]| |[|] m e]; try (cbn; discriminate); try reflexivity.
  intros _. unfold F64.sqrt, SFsqrt.
  pose proof (SFsqrt_core_binary_nonneg F64.prec F64.emax m e) as Hq.
  destruct (SFsqrt_core_binary F64.prec F64.emax (Z.pos m) e) as [[mz ez] lz].
  cbn [fst] in Hq.
  rewrite (binary_round_aux_sign F64.prec F64.emax false mz ez lz Hq). apply orb_true_r.
Qed.

Lemma of_double_nonneg x : nan_or_nonneg x = true -> nan_or_nonneg (F32.of_double x) = true.
Proof.
  unfold nan_or_nonneg.
  destruct x as [[|]|[|]| |[|] m e]; try (cbn; discriminate); try reflexivity.
  intros _. unfold F32.of_double.
  rewrite (binary_round_sign F32.prec F32.emax false m e). apply orb_true_r.
Qed.

(** X9. The pixel width of an edge is never negative: for any two corners,
    whatever their coordinates (infinite and NaN included), it is NaN or a
    value of positive sign (+0, a positive number or +infinity). *)
Theorem pixel_width_is_never_negative (c0 c1 : Point2f) :
  isnan (pixel_width c0 c1) = true \/ has_sign false (pixel_width c0 c1) = true.
Proof.
  apply orb_prop. change (nan_or_nonneg (pixel_width c0 c1) = true).
  unfold pixel_width, norm.
  apply of_double_nonneg, sqrt_nonneg, add_nonneg; apply square_nonneg.
Qed.

(** X10. The sign of the estimated size is the sign of the focal length
    times the sign of the altitude: for a positive finite pixel width, a
    finite non-zero focal length of sign [sf] and a finite non-zero altitude
    of sign [sa], the size is not NaN and has sign [sf xor sa] (a zero or an
    infinity of that sign when the product underflows or overflows). A
    negative altitude with a positive focal length gives a size that is
    negative, -0 or -infinity. *)
Theorem marker_size_sign_rule (pw : float) (sf : bool) (mf : positive) (ef : Z)
    (sa : bool) (ma : positive) (ea : Z) :
  finite_positive pw = true ->
  bounded F32.prec F32.emax ma ea = true ->
  has_sign (xorb sf sa)
    (marker_size pw (S754_finite sf mf ef) (S754_finite sa ma ea)) = true.
Proof.
  intros Hpw Hva.
  destruct pw as [?|?| |[|] mp ep]; try discriminate.
  destruct (of_float_finite sa ma ea Hva) as (ma' & ea' & Hda).
  unfold marker_size. rewrite Hda.
  apply of_double_sign.
  pose proof (binary_round_sign F64.prec F64.emax false mp ep) as Hp.
  change (binary_round F64.prec F64.emax false mp ep)
    with (F64.of_float (S754_finite false mp ep)) in Hp.
  destruct (F64.of_float (S754_finite false mp ep)) as [b|b| |b m e];
    simpl in Hp; try discriminate; apply eqb_prop in Hp; subst b.
  - cbn. apply eqb_reflx.
  - cbn. apply eqb_reflx.
  - pose proof (SFdiv_finite_sign F64.prec F64.emax false m e sf mf ef) as Hq.
    cbn [xorb] in Hq. unfold F64.div.
    destruct (SFdiv F64.prec F64.emax (S754_finite false m e) (S754_finite sf mf ef))
      as [b|b| |b mq eq_]; simpl in Hq; try discriminate;
      apply eqb_prop in Hq; subst b.
    + cbn. apply eqb_reflx.
    + cbn. apply eqb_reflx.
    + apply (SFmul_finite_sign F64.prec F64.emax sf mq eq_ sa ma' ea').
Qed.

(** A 50-pixel edge, [fx = 500], altitude -2: the size is the [float]
    -0.2. *)
Lemma marker_size_sign_rule_witness :
  marker_size (pixel_width (Bench.pt 100 100) (Bench.pt 150 100))
              (F64.of_Z 500) (F32.of_Z (-2)) = F32.neg f_0_2
  /\ has_sign true
       (marker_size (pixel_width (Bench.pt 100 100) (Bench.pt 150 100))
                    (F64.of_Z 500) (F32.of_Z (-2))) = true.
Proof.
  split; [reflexivity|].
  exact (marker_size_sign_rule
           (pixel_width (Bench.pt 100 100) (Bench.pt 150 100))
           false 8796093022208000 (-44) true 8388608 (-22) eq_refl eq_refl).
Defined.






(** ** The stored calibration *)

Lemma empty_map_rows (f : spec_float -> spec_float) rows d d' :
  empty {| mat_depth := d; mat_rows := map (map f) rows |}
    = empty {| mat_depth := d'; mat_rows := rows |}.
Proof.
  unfold empty. cbn [mat_rows]. rewrite <- concat_map.
  now destruct (List.concat rows).
Qed.

Lemma convertTo_CV_64F_empty m : empty m = true -> convertTo_CV_64F m = m.
Proof. intros He. unfold convertTo_CV_64F. now rewrite He. Qed.

Lemma convertTo_CV_64F_fixed m : mat_depth m = CV_64F -> convertTo_CV_64F m = m.
Proof. intros Hd. unfold convertTo_CV_64F. rewrite Hd. now destruct (empty m). Qed.

Lemma convertTo_CV_64F_facts m :
  empty (convertTo_CV_64F m) = empty m
  /\ (empty m = false -> mat_depth (convertTo_CV_64F m) = CV_64F)
  /\ map (@List.length _) (mat_rows (convertTo_CV_64F m)) = map (@List.length _) (mat_rows m)
  /\ convertTo_CV_64F (convertTo_CV_64F m) = convertTo_CV_64F m.
Proof.
  destruct (empty m) eqn:He.
  - rewrite (convertTo_CV_64F_empty m He), (convertTo_CV_64F_empty m He).
    split; [exact He|]. split; [discriminate|]. split; reflexivity.
  - assert (Hl : map (@List.length _) (map (map F64.of_float) (mat_rows m))
                 = map (@List.length _) (mat_rows m)).
    { rewrite map_map. apply map_ext. intros r. apply length_map. }
    assert (Hne : empty {| mat_depth := CV_64F;
                           mat_rows := map (map F64.of_float) (mat_rows m) |} = false).
    { transitivity (empty {| mat_depth := mat_depth m; mat_rows := mat_rows m |});
        [apply (empty_map_rows F64.of_float)|now destruct m]. }
    assert (H123 : empty (convertTo_CV_64F m) = false
                   /\ mat_depth (convertTo_CV_64F m) = CV_64F
                   /\ map (@List.length _) (mat_rows (convertTo_CV_64F m))
                      = map (@List.length _) (mat_rows m)).
    { unfold convertTo_CV_64F. rewrite He.
      destruct (mat_depth m) eqn:Hd; cbn [mat_depth mat_rows];
        repeat split; assumption. }
    destruct H123 as (H1 & H2 & H3).
    split; [exact H1|]. split; [intros _; exact H2|]. split; [exact H3|].
    now apply convertTo_CV_64F_fixed.
Qed.

(** X12. Whatever the calibration file holds, the node the constructor
    returns stores a camera matrix that is empty exactly when the loaded one
    is and otherwise has depth [CV_64F] and the loaded matrix's shape, so
    that [at<double>] reads it at its own element type; converting it again
    would change nothing; the distortion coefficients are stored as loaded,
    in whatever depth the file gave them. *)
Theorem stored_camera_matrix_is_double (disk : FileSystem) :
  exists t n,
    ArucoTrackerNode_new disk = (t, Ok n)
    /\ empty (_camera_matrix n) = empty (fst (loaded disk))
    /\ (empty (fst (loaded disk)) = false -> mat_depth (_camera_matrix n) = CV_64F)
    /\ map (@List.length _) (mat_rows (_camera_matrix n))
       = map (@List.length _) (mat_rows (fst (loaded disk)))
    /\ convertTo_CV_64F (_camera_matrix n) = _camera_matrix n
    /\ _dist_coeffs n = snd (loaded disk).
Proof.
  destruct (convertTo_CV_64F_facts (fst (loaded disk))) as (He & Hd & Hs & Hi).
  unfold loaded in *. unfold ArucoTrackerNode_new.
  destruct (disk "usb_cam_calib.yml") as [fs|]; cbn [bind log emit ret app fst snd] in *;
    match goal with |- context [if ?c then _ else _] => destruct c end;
    cbn [bind log emit ret app]; eexists; eexists; (split; [reflexivity|]);
    cbn [_camera_matrix _dist_coeffs]; repeat split; assumption.
Qed.

(** A camera matrix stored as [float] in the file is kept as [double]. *)
Lemma stored_camera_matrix_is_double_witness :
  let K32 := {| mat_depth := CV_32F;
                mat_rows := [ [F32.of_Z 500; F32.of_Z 0; F32.of_Z 320];
                              [F32.of_Z 0; F32.of_Z 500; F32.of_Z 240];
                              [F32.of_Z 0; F32.of_Z 0; F32.of_Z 1] ] |} in
  exists t n,
    ArucoTrackerNode_new (Bench.disk_with (Bench.storage K32 Bench.D5)) = (t, Ok n)
    /\ mat_depth (_camera_matrix n) = CV_64F
    /\ map (@List.length _) (mat_rows (_camera_matrix n)) = [3; 3; 3]%nat.
Proof.
  intros K32.
  destruct (stored_camera_matrix_is_double (Bench.disk_with (Bench.storage K32 Bench.D5)))
    as (t & n & Hnew & _ & Hdepth & Hshape & _).
  exists t, n. split; [exact Hnew|]. split.
  - apply Hdepth. reflexivity.
  - rewrite Hshape. reflexivity.
Defined.

(** ** What a published frame implies *)

(** X13. A frame is published only if the reads of the marker loop were
    all in range: the detector returned a corner set for every id, each
    handled corner set has at least two points, and, when at least one id
    was detected, the stored camera matrix has an entry (0,0). *)
Theorem published_frame_reads_in_range `{Externals}
    (n : ArucoTrackerNode) (msg : ImageMsg) (image : Image)
    (corners : list (list Point2f)) (ids : list Z) :
  toCvCopy msg BGR8 = Returns image ->
  detectMarkers image (_dictionary n) = Returns (corners, ids) ->
  published (fst (image_callback n msg)) <> [] ->
  (List.length ids <= List.length corners)%nat
  /\ Forall (fun c => (2 <= List.length c)%nat) (firstn (List.length ids) corners)
  /\ (ids <> [] -> Mat_at (_camera_matrix n) 0 0 <> None).
Proof.
  intros Hdec Hdet Hpub.
  destruct (image_callback_published_inv n msg image corners ids Hdec Hdet Hpub)
    as [_ [[-> _]|(image1 & t2 & image2 & Hne & _ & Hl & _)]].
  - cbn. split; [lia|]. split; [constructor|]. intros Hc. now elim Hc.
  - destruct (marker_loop_ok_inv _ _ _ _ _ _ _ Hl) as (_ & _ & Hk).
    assert (Hsz : forall c, size_of n c <> None ->
                            (2 <= List.length c)%nat
                            /\ Mat_at (_camera_matrix n) 0 0 <> None).
    { intros c Hc. unfold size_of in Hc.
      destruct c as [|c0 [|c1 more]]; try (now elim Hc).
      destruct (Mat_at (_camera_matrix n) 0 0); [|now elim Hc].
      split; [cbn; lia|discriminate]. }
    split; [|split].
    + destruct ids as [|id ids']; [now elim Hne|].
      destruct (Hk (List.length ids') ltac:(cbn; lia)) as (c & Hc & _).
      assert (Hlt : nth_error corners (List.length ids') <> None)
        by (rewrite Hc; discriminate).
      apply nth_error_Some in Hlt. cbn. lia.
    + apply Forall_forall. intros c Hin.
      apply In_nth_error in Hin as [k Hn]. rewrite nth_error_firstn in Hn.
      destruct (k <? List.length ids)%nat eqn:Hlt; [|discriminate].
      apply Nat.ltb_lt in Hlt.
      destruct (Hk k ltac:(lia)) as (c' & Hc' & Hs').
      rewrite Hn in Hc'. inversion Hc'; subst. exact (proj1 (Hsz _ Hs')).
    + intros _. destruct ids as [|id ids']; [now elim Hne|].
      destruct (Hk 0%nat ltac:(cbn; lia)) as (c & _ & Hs). exact (proj2 (Hsz _ Hs)).
Qed.

(** Two ids and two corner sets, all in range: the frame is published. *)
Lemma published_frame_reads_in_range_witness :
  let E := Bench.libs ([Bench.markerA; Bench.markerB], [7; 9])
                      Bench.pnp_ok Bench.axis_ok in
  let n := Bench.node (F32.of_Z 2) Bench.K500 Bench.D5 in
  published (fst (@image_callback E n (Bench.frame 1))) <> []
  /\ Mat_at (_camera_matrix n) 0 0 <> None.
Proof.
  intros E n.
  assert (Hpub : published (fst (@image_callback E n (Bench.frame 1))) <> [])
    by (vm_compute; discriminate).
  split; [exact Hpub|].
  destruct (@published_frame_reads_in_range E n (Bench.frame 1) (pixels (Bench.frame 1))
              [Bench.markerA; Bench.markerB] [7; 9] eq_refl eq_refl Hpub)
    as (_ & _ & Hat).
  apply Hat. discriminate.
Defined.

(** ** The skipped marker and its neighbours (C5) *)

Lemma firstn_plus {A : Type} (a b : nat) :
  forall l : list A, firstn (a + b) l = firstn a l ++ firstn b (skipn a l).
Proof.
  induction a as [|a IH]; intros l; [reflexivity|].
  destruct l as [|x l]; cbn [Nat.add firstn skipn app].
  - now rewrite firstn_nil.
  - now rewrite IH.
Qed.

(** A stretch of the corner sets that contains index [i], cut at [i]. *)
Lemma firstn_skipn_around {A : Type} (l : list A) (k len i : nat) (x : A) :
  (k <= i < k + len)%nat ->
  nth_error l i = Some x ->
  firstn len (skipn k l)
    = firstn (i - k) (skipn k l) ++ x :: firstn (k + len - S i) (skipn (S i) l).
Proof.
  intros Hk Hx.
  replace len with ((i - k) + S (k + len - S i))%nat at 1 by lia.
  rewrite firstn_plus, skipn_skipn.
  replace (i - k + k)%nat with i by lia.
  now rewrite (skipn_nth_error l i), Hx.
Qed.

Lemma expected_solves_app n l1 l2 :
  expected_solves n (l1 ++ l2) = expected_solves n l1 ++ expected_solves n l2.
Proof. unfold expected_solves. apply flat_map_app. Qed.

Lemma expected_axes_app n l1 l2 :
  expected_axes n (l1 ++ l2) = expected_axes n l1 ++ expected_axes n l2.
Proof. unfold expected_axes. apply flat_map_app. Qed.

(** C5. A marker whose estimated size is NaN or infinite (always so when
    the focal length is zero) is skipped: its loop iteration leaves no
    trace (no log line, no object points, no solver call, no axis drawn) and
    hands the image on unchanged. The other markers are still processed:
    the loop runs the body of the next marker on that same image, and in
    any loop that covers the marker and ends normally the solver calls and
    the axes are exactly those of the markers handled before it followed by
    those of the markers handled after it, each marker of finite size in its
    turn. *)
Theorem invalid_size_skips_marker `{Externals}
    (n : ArucoTrackerNode) (corners : list (list Point2f)) (i : nat) (image : Image)
    (corners_i : list Point2f) (c0 c1 : Point2f) (fx : double) :
  nth_error corners i = Some corners_i ->
  nth_error corners_i 0 = Some c0 ->
  nth_error corners_i 1 = Some c1 ->
  Mat_at (_camera_matrix n) 0 0 = Some fx ->
  let s := marker_size (pixel_width c0 c1) fx (_ground_distance n) in
  isnan s || isinf s = true \/ (exists b, fx = S754_zero b) ->
  marker_body n corners i image = ([], Ok image)
  /\ (forall todo,
        marker_loop n corners (S (S todo)) i image
          = (image' <- marker_body n corners (S i) image ;;
             marker_loop n corners todo (S (S i)) image'))
  /\ (forall k len image0 t image',
        (k <= i < k + len)%nat ->
        marker_loop n corners len k image0 = (t, Ok image') ->
        let before := firstn (i - k) (skipn k corners) in
        let after := firstn (k + len - S i) (skipn (S i) corners) in
        solved t = expected_solves n before ++ expected_solves n after
        /\ axes t = expected_axes n before ++ expected_axes n after).
Proof.
  intros Hi H0 H1 Hfx s Hbad.
  assert (Hg : guard s = false).
  { destruct Hbad as [Hbad|[b ->]].
    - now apply guard_false_iff.
    - apply zero_focal_length_invalid. }
  assert (Hb : forall im, marker_body n corners i im = ([], Ok im)).
  { intros im.
    rewrite (marker_body_unfold n corners i im corners_i c0 c1 fx) by assumption.
    cbv zeta. fold s. now rewrite Hg. }
  assert (Hsz : size_of n corners_i = Some s).
  { unfold size_of. destruct corners_i as [|d0 [|d1 more]]; try discriminate.
    cbn in H0, H1. inversion H0; inversion H1; subst. now rewrite Hfx. }
  split; [apply Hb|]. split.
  - intros todo.
    change (marker_loop n corners (S (S todo)) i image)
      with (image' <- marker_body n corners i image ;;
            marker_loop n corners (S todo) (S i) image').
    rewrite Hb, bind_pure. reflexivity.
  - intros k len image0 t image' Hk Hl before after.
    destruct (marker_loop_ok_inv _ _ _ _ _ _ _ Hl) as (Hs & Ha & _).
    rewrite (firstn_skipn_around corners k len i corners_i Hk Hi) in Hs, Ha.
    fold before after in Hs, Ha.
    rewrite expected_solves_app in Hs. rewrite expected_axes_app in Ha.
    change (corners_i :: after) with ([corners_i] ++ after) in Hs, Ha.
    rewrite expected_solves_app in Hs. rewrite expected_axes_app in Ha.
    unfold expected_solves at 2 in Hs. unfold expected_axes at 2 in Ha.
    cbn [flat_map] in Hs, Ha. rewrite Hsz, Hg in Hs, Ha.
    cbn [app] in Hs, Ha. now split.
Qed.

(** A far marker whose size overflows stands between markerB and markerA
    (altitude 1024, [fx = 500]): it is skipped, markerB before it and
    markerA after it are given to the solver. *)
Lemma invalid_size_skips_marker_witness :
  let E := Bench.libs ([Bench.markerB; Bench.markerFar; Bench.markerA], [9; 3; 7])
                      Bench.pnp_ok Bench.axis_ok in
  let n := Bench.node (F32.of_Z 1024) Bench.K500 Bench.D5 in
  let corners := [Bench.markerB; Bench.markerFar; Bench.markerA] in
  let image := pixels (Bench.frame 1) in
  marker_size (pixel_width (Bench.pt 0 0) {| p2x := F32.of_scaled 1 127; p2y := F32.of_Z 0 |})
              (F64.of_Z 500) (F32.of_Z 1024) = S754_infinity false
  /\ @marker_body E n corners 1 image = ([], Ok image)
  /\ map snd (solved (fst (@marker_loop E n corners 3 0 image)))
     = [Bench.markerB; Bench.markerA].
Proof.
  intros E n corners image. split; [reflexivity|].
  destruct (@invalid_size_skips_marker E n corners 1%nat image Bench.markerFar
              (Bench.pt 0 0) {| p2x := F32.of_scaled 1 127; p2y := F32.of_Z 0 |}
              (F64.of_Z 500) eq_refl eq_refl eq_refl eq_refl (or_introl eq_refl))
    as (Hbody & _ & Hloop).
  split; [exact Hbody|].
  destruct (@marker_loop E n corners 3 0 image) as [t r] eqn:Hl.
  assert (Hr : exists image', r = Ok image').
  { vm_compute in Hl. inversion Hl. eexists; reflexivity. }
  destruct Hr as [image' ->].
  destruct (Hloop 0%nat 3%nat image t image' ltac:(lia) Hl) as [Hs _].
  cbn [fst]. rewrite Hs. reflexivity.
Defined.

(** ** Sizes that are zero or negative (C10) *)

Lemma half_of_zero b : F32.div (S754_zero b) two_f = S754_zero b.
Proof. now destruct b. Qed.

(** C10. The guard only excludes NaN and the infinities. For a marker whose
    estimated size [s] is finite and not positive (zero or negative) the
    guard passes, the iteration logs the size and calls the solver on the
    four points (-h, h, 0), (h, h, 0), (h, -h, 0), (-h, -h, 0) built from
    [h = s / 2.0f], and on nothing else. That [h] is zero or negative: for a
    zero size all four points have zero coordinates (a collapsed square);
    in every case [h <= -h], so the x of the "top right" point does not
    exceed the x of the "top left" one, nor its y the y of the "bottom right"
    one (an inverted square when [h] is negative). *)
Theorem nonpositive_size_reaches_solver `{Externals}
    (n : ArucoTrackerNode) (corners : list (list Point2f)) (i : nat) (image : Image)
    (corners_i : list Point2f) (c0 c1 : Point2f) (fx : double) :
  nth_error corners i = Some corners_i ->
  nth_error corners_i 0 = Some c0 ->
  nth_error corners_i 1 = Some c1 ->
  Mat_at (_camera_matrix n) 0 0 = Some fx ->
  let s := marker_size (pixel_width c0 c1) fx (_ground_distance n) in
  is_finite s = true ->
  F32.leb s zero_f = true ->
  let h := F32.div s two_f in
  let top_left := {| p3x := F32.neg h; p3y := h; p3z := zero_f |} in
  let top_right := {| p3x := h; p3y := h; p3z := zero_f |} in
  let bottom_right := {| p3x := h; p3y := F32.neg h; p3z := zero_f |} in
  let bottom_left := {| p3x := F32.neg h; p3y := F32.neg h; p3z := zero_f |} in
  guard s = true
  /\ (exists rest r,
        marker_body n corners i image
          = ([Log INFO "marker_size %f" [arg_float s];
              Log INFO "solvePnP" [];
              SolvePnP [top_left; top_right; bottom_right; bottom_left] corners_i
                       (_camera_matrix n) (_dist_coeffs n)]
             ++ rest, r))
  /\ solved (fst (marker_body n corners i image))
     = [([top_left; top_right; bottom_right; bottom_left], corners_i)]
  /\ F32.leb h zero_f = true
  /\ F32.leb (p3x top_right) (p3x top_left) = true
  /\ F32.leb (p3y top_right) (p3y bottom_right) = true
  /\ (forall b, s = S754_zero b ->
        top_left = {| p3x := S754_zero (negb b); p3y := S754_zero b; p3z := zero_f |}
        /\ top_right = {| p3x := S754_zero b; p3y := S754_zero b; p3z := zero_f |}
        /\ bottom_right = {| p3x := S754_zero b; p3y := S754_zero (negb b); p3z := zero_f |}
        /\ bottom_left
           = {| p3x := S754_zero (negb b); p3y := S754_zero (negb b); p3z := zero_f |}).
Proof.
  intros Hi H0 H1 Hfx s Hfin Hle h top_left top_right bottom_right bottom_left.
  assert (Hg : guard s = true) by now rewrite guard_is_finite.
  destruct (half_of_nonpositive s Hfin Hle) as [Hh Hinv]. fold h in Hh, Hinv.
  split; [exact Hg|].
  assert (Hbody : marker_body n corners i image = solve_and_draw n corners_i s image).
  { rewrite (marker_body_unfold n corners i image corners_i c0 c1 fx) by assumption.
    cbv zeta. fold s. now rewrite Hg. }
  rewrite Hbody, solve_and_draw_unfold. cbv zeta.
  change (objectPoints s) with [top_left; top_right; bottom_right; bottom_left].
  split; [|split; [|split; [exact Hh|split; [exact Hinv|split; [exact Hinv|]]]]].
  - destruct (solvePnP _ corners_i _ _) as [[[ok rvec] tvec]|e].
    + eexists; eexists; reflexivity.
    + exists [], (Throw e). reflexivity.
  - destruct (solvePnP _ corners_i _ _) as [[[ok rvec] tvec]|e]; reflexivity.
  - intros b Hs. unfold top_left, top_right, bottom_right, bottom_left, h.
    rewrite Hs, half_of_zero. now repeat split.
Qed.

(** Stored altitude -1 (and 0), a 50-pixel edge, [fx = 500]: the size is
    the [float] -0.1 (and +0); the solver is called on the inverted square
    of half-side -0.05 (and on four points at the origin). *)
Lemma nonpositive_size_reaches_solver_witness :
  let E := Bench.libs ([Bench.markerA], [7]) Bench.pnp_ok Bench.axis_ok in
  let image := pixels (Bench.frame 1) in
  let h := F32.div (F32.neg f_0_1) two_f in
  (marker_size (pixel_width (Bench.pt 100 100) (Bench.pt 150 100))
               (F64.of_Z 500) (F32.of_Z (-1)) = F32.neg f_0_1
   /\ F32.ltb h zero_f = true
   /\ solved (fst (@marker_body E (Bench.node (F32.of_Z (-1)) Bench.K500 Bench.D5)
                     [Bench.markerA] 0 image))
      = [([ {| p3x := F32.neg h; p3y := h; p3z := zero_f |};
            {| p3x := h; p3y := h; p3z := zero_f |};
            {| p3x := h; p3y := F32.neg h; p3z := zero_f |};
            {| p3x := F32.neg h; p3y := F32.neg h; p3z := zero_f |} ], Bench.markerA)])
  /\
  (marker_size (pixel_width (Bench.pt 100 100) (Bench.pt 150 100))
               (F64.of_Z 500) (S754_zero false) = S754_zero false
   /\ solved (fst (@marker_body E (Bench.node (S754_zero false) Bench.K500 Bench.D5)
                     [Bench.markerA] 0 image))
      = [([ {| p3x := S754_zero true; p3y := S754_zero false; p3z := zero_f |};
            {| p3x := S754_zero false; p3y := S754_zero false; p3z := zero_f |};
            {| p3x := S754_zero false; p3y := S754_zero true; p3z := zero_f |};
            {| p3x := S754_zero true; p3y := S754_zero true; p3z := zero_f |} ],
          Bench.markerA)]).
Proof.
  intros E image h. split.
  - split; [reflexivity|]. split; [reflexivity|].
    exact (proj1 (proj2 (proj2
      (@nonpositive_size_reaches_solver E (Bench.node (F32.of_Z (-1)) Bench.K500 Bench.D5)
         [Bench.markerA] 0%nat image Bench.markerA
         (Bench.pt 100 100) (Bench.pt 150 100) (F64.of_Z 500)
         eq_refl eq_refl eq_refl eq_refl eq_refl eq_refl)))).
  - split; [reflexivity|].
    exact (proj1 (proj2 (proj2
      (@nonpositive_size_reaches_solver E (Bench.node (S754_zero false) Bench.K500 Bench.D5)
         [Bench.markerA] 0%nat image Bench.markerA
         (Bench.pt 100 100) (Bench.pt 150 100) (F64.of_Z 500)
         eq_refl eq_refl eq_refl eq_refl eq_refl eq_refl)))).
Defined.

(** ** The object points (C6) *)

(** The width [h - (-h)] of the square built from an exact half is the
    size again. *)
Lemma width_of_exact_half sg m e :
  Zpos (digits2_pos m) = 24 -> -148 <= e <= 104 ->
  F32.sub (S754_finite sg m (e - 1)) (F32.neg (S754_finite sg m (e - 1)))
    = S754_finite sg m e.
Proof.
  intros Hd He.
  unfold F32.sub, F32.neg, SFopp, SFsub.
  rewrite Z.min_id. unfold shl_align. rewrite Z.sub_diag. cbn [fst].
  assert (Hround : binary_round F32.prec F32.emax sg m~0 (e - 1) = S754_finite sg m e).
  { unfold binary_round, F32.prec, F32.emax.
    assert (Hf : forall x, x = Z.pos (digits2_pos m~0) + (e - 1) -> fexp 24 128 x = e).
    { intros x ->. cbn [digits2_pos]. unfold fexp, emin. lia. }
    rewrite (Hf _ eq_refl). unfold shl_align.
    replace (e - (e - 1)) with 1 by lia.
    rewrite binary_round_aux_exact_double by lia.
    f_equal. lia. }
  destruct sg; cbn [cond_Zopp negb Z.opp Z.sub Z.add Z.pos_sub binary_normalize];
    rewrite ?Pos.add_diag; exact Hround.
Qed.

(** C6 (as amended). For a marker whose estimated size [s] passes the
    guard, the solver receives, with the marker's corners and the stored
    matrices, the four points (-h, h, 0), (h, h, 0), (h, -h, 0), (-h, -h, 0)
    in this order, where [h] is [s / 2.0f] rounded to [float]; no other
    solver call is made in that iteration. For every normal [s] above the
    least binade (24-bit mantissa, exponent at least -148) the halving is
    exact ([h] has the mantissa of [s] and the exponent lowered by one) and
    the width [h - (-h)] is [s]: the points are the corners of the square of
    side [s] centred at the origin of the plane z = 0. For [s] the [float]
    0.2 the coordinates are plus and minus the [float] 0.1. *)
Theorem object_points_are_centred_square `{Externals}
    (n : ArucoTrackerNode) (corners : list (list Point2f)) (i : nat) (image : Image)
    (corners_i : list Point2f) (c0 c1 : Point2f) (fx : double) :
  nth_error corners i = Some corners_i ->
  nth_error corners_i 0 = Some c0 ->
  nth_error corners_i 1 = Some c1 ->
  Mat_at (_camera_matrix n) 0 0 = Some fx ->
  let s := marker_size (pixel_width c0 c1) fx (_ground_distance n) in
  guard s = true ->
  let h := F32.div s two_f in
  let square :=
    [ {| p3x := F32.neg h; p3y := h; p3z := zero_f |};
      {| p3x := h; p3y := h; p3z := zero_f |};
      {| p3x := h; p3y := F32.neg h; p3z := zero_f |};
      {| p3x := F32.neg h; p3y := F32.neg h; p3z := zero_f |} ] in
  (exists rest r,
     marker_body n corners i image
       = ([Log INFO "marker_size %f" [arg_float s];
           Log INFO "solvePnP" [];
           SolvePnP square corners_i (_camera_matrix n) (_dist_coeffs n)] ++ rest, r))
  /\ solved (fst (marker_body n corners i image)) = [(square, corners_i)]
  /\ (forall sg m e,
        s = S754_finite sg m e -> Zpos (digits2_pos m) = 24 -> -148 <= e <= 104 ->
        h = S754_finite sg m (e - 1) /\ F32.sub h (F32.neg h) = s)
  /\ objectPoints f_0_2
     = [ {| p3x := F32.neg f_0_1; p3y := f_0_1; p3z := zero_f |};
         {| p3x := f_0_1; p3y := f_0_1; p3z := zero_f |};
         {| p3x := f_0_1; p3y := F32.neg f_0_1; p3z := zero_f |};
         {| p3x := F32.neg f_0_1; p3y := F32.neg f_0_1; p3z := zero_f |} ].
Proof.
  intros Hi H0 H1 Hfx s Hg h square.
  assert (Hhalf : forall sg m e,
             s = S754_finite sg m e -> Zpos (digits2_pos m) = 24 -> -148 <= e <= 104 ->
             h = S754_finite sg m (e - 1) /\ F32.sub h (F32.neg h) = s).
  { intros sg m e Hs Hd He.
    assert (Hh : h = S754_finite sg m (e - 1)) by (unfold h; rewrite Hs; now apply half_exact).
    split; [exact Hh|]. rewrite Hh, Hs. now apply width_of_exact_half. }
  rewrite (marker_body_unfold n corners i image corners_i c0 c1 fx) by assumption.
  cbv zeta. fold s. rewrite Hg, solve_and_draw_unfold. cbv zeta.
  change (objectPoints s) with square.
  destruct (solvePnP square corners_i _ _) as [[[ok rvec] tvec]|e].
  - split; [|split; [reflexivity|split; [exact Hhalf|reflexivity]]].
    eexists; eexists; reflexivity.
  - split; [|split; [reflexivity|split; [exact Hhalf|reflexivity]]].
    exists [], (Throw e). reflexivity.
Qed.

(** Altitude 2, a 50-pixel edge, [fx = 500]: the size is the [float] 0.2,
    the solver receives the square of half-side 0.1, whose width is 0.2. *)
Lemma object_points_are_centred_square_witness :
  let E := Bench.libs ([Bench.markerA], [7]) Bench.pnp_ok Bench.axis_ok in
  let n := Bench.node (F32.of_Z 2) Bench.K500 Bench.D5 in
  marker_size (pixel_width (Bench.pt 100 100) (Bench.pt 150 100)) (F64.of_Z 500) (F32.of_Z 2)
    = f_0_2
  /\ solved (fst (@marker_body E n [Bench.markerA] 0 (pixels (Bench.frame 1))))
     = [(objectPoints f_0_2, Bench.markerA)]
  /\ F32.sub (F32.div f_0_2 two_f) (F32.neg (F32.div f_0_2 two_f)) = f_0_2.
Proof.
  intros E n. split; [reflexivity|].
  destruct (@object_points_are_centred_square E n [Bench.markerA] 0%nat
              (pixels (Bench.frame 1)) Bench.markerA
              (Bench.pt 100 100) (Bench.pt 150 100) (F64.of_Z 500)
              eq_refl eq_refl eq_refl eq_refl eq_refl) as (_ & Hsolved & Hexact & _).
  split; [exact Hsolved|].
  exact (proj2 (Hexact false 13421773%positive (-26) eq_refl eq_refl ltac:(lia))).
Defined.

(** C6 fails as stated. A 500-pixel edge, [fx = 500] and altitude 2^-149
    give the size 2^-149, the least positive [float]; it passes the guard,
    its half rounds to zero, and the solver receives four points at the
    origin: the width of that "square" is 0, not the size. And for the
    normal size 8388609 * 2^-149 the half rounds to 4194304 * 2^-149, so the
    width of the square is 8388608 * 2^-149, not the size. *)
Lemma object_points_not_always_side_s :
  let E := Bench.libs ([[Bench.pt 0 0; Bench.pt 500 0]], [7]) Bench.pnp_ok Bench.axis_ok in
  let n := Bench.node (F32.of_scaled 1 (-149)) Bench.K500 Bench.D5 in
  let s := S754_finite false 1 (-149) in
  let s' := S754_finite false 8388609 (-149) in
  let h' := F32.div s' two_f in
  (size_of n [Bench.pt 0 0; Bench.pt 500 0] = Some s
   /\ guard s = true
   /\ solved (fst (@marker_body E n [[Bench.pt 0 0; Bench.pt 500 0]] 0
                     (pixels (Bench.frame 1))))
      = [([ {| p3x := S754_zero true; p3y := S754_zero false; p3z := zero_f |};
            {| p3x := S754_zero false; p3y := S754_zero false; p3z := zero_f |};
            {| p3x := S754_zero false; p3y := S754_zero true; p3z := zero_f |};
            {| p3x := S754_zero true; p3y := S754_zero true; p3z := zero_f |} ],
          [Bench.pt 0 0; Bench.pt 500 0])]
   /\ F32.sub (F32.div s two_f) (F32.neg (F32.div s two_f)) = S754_zero false
   /\ F32.sub (F32.div s two_f) (F32.neg (F32.div s two_f)) <> s)
  /\
  (valid_binary F32.prec F32.emax s' = true
   /\ guard s' = true
   /\ h' = S754_finite false 4194304 (-149)
   /\ F32.sub h' (F32.neg h') = S754_finite false 8388608 (-149)
   /\ F32.sub h' (F32.neg h') <> s').
Proof. vm_compute. repeat split; discriminate. Qed.

(** ** One published frame per decoded frame (C7) *)





(** ** Frames without markers *)

Lemma image_callback_no_marker `{Externals} n msg :
  (forall image, toCvCopy msg BGR8 = Returns image ->
                 exists c, detectMarkers image (_dictionary n) = Returns (c, [])) ->
  (forall what, toCvCopy msg BGR8 <> Raises (cv_Exception what)) ->
  snd (image_callback n msg) = Ok tt
  /\ published (fst (image_callback n msg)) = republished [msg].
Proof.
  intros Hdet Hdec.
  unfold image_callback, image_callback_try, call, republished. cbn [flat_map].
  destruct (toCvCopy msg BGR8) as [image|[what|what]] eqn:Hd.
  - rewrite bind_pure. destruct (Hdet image eq_refl) as [c ->].
    rewrite bind_pure. cbn. now split.
  - cbn. now split.
  - now elim (Hdec what).
Qed.

(** X7. When, for each frame delivered in a run, decoding returns or
    raises [cv_bridge::Exception] and the detector finds no marker in the
    decoded image, [spin] from any node state (an empty camera matrix and
    any altitude included) and with any readings in between ends normally
    and publishes exactly the frames that decode, each with its own header
    and the encoding ["bgr8"], in arrival order: the calibration is never
    read. *)
Theorem marker_free_frames_are_republished `{Externals}
    (n : ArucoTrackerNode) (inbox : list incoming) :
  (forall msg image,
     In msg (frames inbox) ->
     toCvCopy msg BGR8 = Returns image ->
     exists c, detectMarkers image (_dictionary n) = Returns (c, [])) ->
  (forall msg what,
     In msg (frames inbox) -> toCvCopy msg BGR8 <> Raises (cv_Exception what)) ->
  (exists n', snd (spin n inbox) = Ok n')
  /\ published (fst (spin n inbox)) = republished (frames inbox).
Proof.
  revert n. induction inbox as [|m rest IH]; intros n Hdet Hdec.
  - cbn. split; [now exists n|reflexivity].
  - destruct m as [msg|msg]; cbn [spin frames flat_map app] in *.
    + fold (frames rest) in *.
      destruct (image_callback_no_marker n msg) as [Hr Hp].
      { intros image Hi. apply (Hdet msg image); [now left|exact Hi]. }
      { intros what. apply Hdec. now left. }
      destruct (image_callback n msg) as [t r]; cbn [fst snd] in Hr, Hp. subst r.
      cbn [bind].
      destruct (IH n) as [[n' Hn'] Hp'].
      { intros m image Hin. apply Hdet. now right. }
      { intros m what Hin. apply Hdec. now right. }
      destruct (spin n rest) as [t' r']; cbn [fst snd] in *.
      split; [now exists n'|].
      rewrite published_app, Hp, Hp'. unfold republished.
      cbn [flat_map]. now rewrite app_nil_r.
    + fold (frames rest) in *.
      apply (IH (distance_sensor_callback n msg)); assumption.
Qed.

(** A node without calibration, two frames around a reading, a detector
    that finds nothing in them: both frames are published. *)
Lemma marker_free_frames_are_republished_witness :
  let E := Bench.libs ([], []) Bench.pnp_ok Bench.axis_ok in
  let n := Bench.node one_f Mat_default Mat_default in
  let inbox := [image_raw (Bench.frame 1);
                distance_sensor (Bench.reading (F32.of_Z 3));
                image_raw (Bench.frame 2)] in
  (exists n', snd (@spin E n inbox) = Ok n')
  /\ map header (published (fst (@spin E n inbox)))
     = [header (Bench.frame 1); header (Bench.frame 2)].
Proof.
  intros E n inbox.
  destruct (@marker_free_frames_are_republished E n inbox) as [Hr Hp].
  - intros msg image _ _. now exists [].
  - intros msg what Hin.
    destruct Hin as [<-|[<-|[]]]; vm_compute; discriminate.
  - split; [exact Hr|]. rewrite Hp. reflexivity.
Defined.

(** ** No state across frames (C9) *)


Section StateBlind.
Context `{Libraries}.












End StateBlind.

(** ** The two embeddings agree *)

Section Agreement.
Context (E : Externals) (S : Type) (tick : S -> S).

Lemma agrees_sret {A : Type} (a : A) : @agrees E S tick _ (sret a) (ret a).
Proof. intros l. reflexivity. Qed.

Lemma agrees_node_step {A : Type} (c : M A) : @agrees E S tick _ (node_step c) c.
Proof. intros l. reflexivity. Qed.

Lemma agrees_sbind {A B : Type} c p (k : A -> @SM (with_state E S tick) B) q :
  @agrees E S tick _ c p -> (forall a, @agrees E S tick _ (k a) (q a)) -> @agrees E S tick _ (sbind c k) (bind p q).
Proof.
  intros Hc Hk l. unfold sbind. specialize (Hc l).
  destruct (c l) as [[t r] l1]. cbn [fst] in Hc. subst p.
  destruct r as [a|e|]; try reflexivity.
  specialize (Hk a l1). destruct (k a l1) as [[t1 r1] l2]. cbn [fst] in *.
  cbn [bind]. now rewrite <- Hk.
Qed.

Lemma agrees_solve_and_draw n corners_i s image :
  @agrees E S tick _ (solve_and_draw_m n corners_i s image) (solve_and_draw n corners_i s image).
Proof.
  unfold solve_and_draw_m, solve_and_draw.
  repeat (apply agrees_sbind; [apply agrees_node_step|intro]).
  match goal with x : (bool * Vec3d * Vec3d)%type |- _ => destruct x as [[ok rvec] tvec] end.
  repeat (apply agrees_sbind; [apply agrees_node_step|intro]).
  intros l. reflexivity.
Qed.

Lemma agrees_marker_body n corners i image :
  @agrees E S tick _ (marker_body_m n corners i image) (marker_body n corners i image).
Proof.
  unfold marker_body_m, marker_body.
  repeat (apply agrees_sbind; [apply agrees_node_step|intro]).
  destruct (guard _); [apply agrees_solve_and_draw|apply agrees_sret].
Qed.

Lemma agrees_marker_loop n corners todo :
  forall i image,
    @agrees E S tick _ (marker_loop_m n corners todo i image) (marker_loop n corners todo i image).
Proof.
  induction todo as [|todo IH]; intros i image; cbn [marker_loop_m marker_loop].
  - apply agrees_sret.
  - apply agrees_sbind; [apply agrees_marker_body|intro; apply IH].
Qed.

Lemma agrees_image_callback_try n msg :
  @agrees E S tick _ (image_callback_try_m n msg) (image_callback_try n msg).
Proof.
  unfold image_callback_try_m, image_callback_try.
  apply agrees_sbind; [intros l; reflexivity|intros image].
  apply agrees_sbind; [intros l; reflexivity|intros [corners ids]].
  apply agrees_sbind; [|intro; apply agrees_node_step].
  destruct (0 <? List.length ids)%nat; [|apply agrees_sret].
  repeat (apply agrees_sbind; [apply agrees_node_step|intro]).
  apply agrees_marker_loop.
Qed.

(** Over libraries whose state has no influence, the member function does
    what [image_callback] does and returns the node. *)
Lemma agrees_image_callback n msg :
  @agrees E S tick _ (image_callback_m n msg) (image_callback n msg ;; ret n).
Proof.
  unfold image_callback_m, image_callback.
  apply agrees_sbind; [|intro; apply agrees_sret].
  intros l. unfold stry_catch_cv_bridge, try_catch_cv_bridge.
  pose proof (agrees_image_callback_try n msg l) as Ht.
  destruct (image_callback_try_m n msg l) as [[t r] l1]. cbn [fst] in Ht.
  rewrite <- Ht. destruct r as [[]|[what|what]|]; reflexivity.
Qed.

Lemma agrees_spin inbox : forall n, @agrees E S tick _ (spin_m n inbox) (spin n inbox).
Proof.
  induction inbox as [|m rest IH]; intros n; cbn [spin_m spin].
  - apply agrees_sret.
  - destruct m as [msg|msg].
    + intros l. pose proof (agrees_image_callback n msg l) as Hc.
      unfold sbind. destruct (image_callback_m n msg l) as [[t r] l1] eqn:Hm.
      cbn [fst] in Hc.
      destruct (image_callback n msg) as [t0 [[]|e|]]; cbn [bind ret] in Hc |- *;
        inversion Hc; subst; try reflexivity.
      rewrite app_nil_r.
      pose proof (IH n l1) as Hr. destruct (spin_m n rest l1) as [[t1 r1] l2].
      cbn [fst] in *. now rewrite <- Hr.
    + intros l. unfold sbind, distance_sensor_callback_m, sret, ret.
      pose proof (IH (distance_sensor_callback n msg) l) as Hr.
      destruct (spin_m _ rest l) as [[t1 r1] l2]. cbn [fst] in *. now rewrite <- Hr.
Qed.

End Agreement.

